(** * TypeIt: the traversal engine and the type-checked container

    A shallow embedding of [typeit.catted.js]: the two traversal functions
    [bfsTraversal] and [dfsTraversal], and the class [TypeGuard] with its
    backing array held by reference in a store of arrays. *)

From stdpp Require Import base option list strings pretty gmap fin_maps.

Open Scope string_scope.
Open Scope list_scope.

(** ** JavaScript values

    The values the program handles, by content.  A number is carried as an
    integer: the program compares numbers with a length and prints them, and
    does no arithmetic on them.  The integers from -2^53 to 2^53 are those
    that a number holds exactly; what depends on the digits of a number or
    on a sum is stated for them.  An object lists its own enumerable
    properties in the order [Object.values] enumerates them. *)

#[warnings="-register-all"]
Inductive value : Type :=
| VUndefined
| VNull
| VBool (b : bool)
| VNum (n : Z)
| VBigInt (n : Z)
| VStr (s : string)
| VSymbol (description : string)
| VFunction (source : string)
| VRegExp (source flags : string)
| VArr (items : list value)
| VObj (props : list (string * value)).

(** What a [throw] carries: an error object, by its constructor and its
    message, or any other value, [null] and [undefined] among them. *)
Inductive exn : Type :=
| TypeError (msg : string)
| RangeError (msg : string)
| Error (msg : string)
| Thrown (v : value).

(** The outcome of a call that may throw. *)
Inductive outcome (A : Type) : Type :=
| Ok (a : A)
| Throw (e : exn).

Arguments Ok {A} a.
Arguments Throw {A} e.

#[global] Instance outcome_ret : MRet outcome := fun A a => Ok a.

#[global] Instance outcome_bind : MBind outcome := fun A B k m =>
  match m with
  | Ok a => k a
  | Throw e => Throw e
  end.

(** [typeof v] *)
Definition typeof (v : value) : string :=
  match v with
  | VUndefined => "undefined"
  | VNull => "object"
  | VBool _ => "boolean"
  | VNum _ => "number"
  | VBigInt _ => "bigint"
  | VStr _ => "string"
  | VSymbol _ => "symbol"
  | VFunction _ => "function"
  | VRegExp _ _ => "object"
  | VArr _ => "object"
  | VObj _ => "object"
  end.

(** [Array.isArray(v)] *)
Definition Array_isArray (v : value) : bool :=
  match v with
  | VArr _ => true
  | _ => false
  end.

(** [v !== null] *)
Definition not_null (v : value) : bool :=
  match v with
  | VNull => false
  | _ => true
  end.

(** [...v] for an array [v]. *)
Definition spread (v : value) : list value :=
  match v with
  | VArr items => items
  | _ => []
  end.

(** [Object.values(v)] for a value whose [typeof] is ["object"]: the own
    enumerable property values.  A regular expression object has none. *)
Definition Object_values (v : value) : list value :=
  match v with
  | VArr items => items
  | VObj props => props.*2
  | _ => []
  end.

(** [a.shift()]: the first element and the rest. *)
Definition shift (a : list value) : option (value * list value) :=
  match a with
  | [] => None
  | x :: rest => Some (x, rest)
  end.

(** [a.pop()]: the last element and what is before it. *)
Definition array_pop (a : list value) : option (value * list value) :=
  match reverse a with
  | [] => None
  | x :: rest => Some (x, reverse rest)
  end.

(** ** The predicate set

    [typeEnum] is an object whose methods are called by name.  A method
    returns a boolean or throws; calling a name the object does not define
    throws a [TypeError]. *)

Abbreviation predicate := (value -> outcome bool).

Definition call (typeEnum : gmap string predicate) (name : string)
  (item : value) : outcome bool :=
  match typeEnum !! name with
  | Some p => p item
  | None => Throw (TypeError ("typeEnum." +:+ name +:+ " is not a function"))
  end.

(** The [if / else if] chain of both traversals: [true] when the leaf is
    appended to [result]. *)
Definition classify (typeEnum : gmap string predicate) (item : value)
  : outcome bool :=
  b ← call typeEnum "isString" item;
  if b : bool then mret true else
  b ← call typeEnum "isNumber" item;
  if b : bool then mret true else
  b ← call typeEnum "isBoolean" item;
  if b : bool then mret true else
  b ← call typeEnum "isRegExp" item;
  if b : bool then mret true else mret false.

(** ** Traversals

    The [while] loops, with the number of iterations bounded by [fuel]:
    [None] when the bound is reached before the work list is empty.  The
    spread of an array into [push] appends its elements; an engine refuses
    a spread of more arguments than its stack holds, some hundred thousand,
    and arrays that wide are left out. *)

Fixpoint bfs_loop (typeEnum : gmap string predicate) (fuel : nat)
  (queue result : list value) : option (outcome (list value)) :=
  match fuel with
  | O => None
  | S fuel =>
    match shift queue with
    | None => Some (Ok result)
    | Some (item, queue) =>
      if Array_isArray item then
        bfs_loop typeEnum fuel (queue ++ spread item) result
      else if String.eqb (typeof item) "object" && not_null item then
        bfs_loop typeEnum fuel (queue ++ Object_values item) result
      else
        match classify typeEnum item with
        | Throw e => Some (Throw e)
        | Ok true => bfs_loop typeEnum fuel queue (result ++ [item])
        | Ok false => bfs_loop typeEnum fuel queue result
        end
    end
  end.

Fixpoint dfs_loop (typeEnum : gmap string predicate) (fuel : nat)
  (stack result : list value) : option (outcome (list value)) :=
  match fuel with
  | O => None
  | S fuel =>
    match array_pop stack with
    | None => Some (Ok result)
    | Some (item, stack) =>
      if Array_isArray item then
        dfs_loop typeEnum fuel (stack ++ spread item) result
      else if String.eqb (typeof item) "object" && not_null item then
        dfs_loop typeEnum fuel (stack ++ Object_values item) result
      else
        match classify typeEnum item with
        | Throw e => Some (Throw e)
        | Ok true => dfs_loop typeEnum fuel stack (result ++ [item])
        | Ok false => dfs_loop typeEnum fuel stack result
        end
    end
  end.

(** The number of nodes of a value: a bound on the iterations it costs. *)
Fixpoint weight (v : value) : nat :=
  match v with
  | VArr items => S (list_sum (map weight items))
  | VObj props =>
    S (list_sum (map (fun kv => match kv with (_, x) => weight x end) props))
  | _ => 1
  end.

Definition bfsTraversal (obj : value) (typeEnum : gmap string predicate)
  : option (outcome (list value)) :=
  bfs_loop typeEnum (S (weight obj)) [obj] [].

Definition dfsTraversal (obj : value) (typeEnum : gmap string predicate)
  : option (outcome (list value)) :=
  dfs_loop typeEnum (S (weight obj)) [obj] [].

(** ** Printing

    [String(v)] as [Array.prototype.join] applies it to each element.  A
    number prints the digits of its integer, as [String] does up to 2^53;
    beyond, [String] rounds to 17 digits, and from 1e21 on it prints an
    exponent, which is left out. *)

Definition join_with (elem : value -> outcome string) (separator : string)
  : list value -> outcome string :=
  fix go (l : list value) : outcome string :=
    match l with
    | [] => Ok ""
    | [x] => elem x
    | x :: rest =>
      match elem x with
      | Throw e => Throw e
      | Ok s =>
        match go rest with
        | Throw e => Throw e
        | Ok r => Ok (s +:+ separator +:+ r)
        end
      end
    end.

(** [v === undefined || v === null] *)
Definition nullish (v : value) : bool :=
  match v with
  | VUndefined | VNull => true
  | _ => false
  end.

Fixpoint ToString (v : value) : outcome string :=
  match v with
  | VUndefined => Ok "undefined"
  | VNull => Ok "null"
  | VBool b => Ok (if b then "true" else "false")
  | VNum n => Ok (pretty n)
  | VBigInt n => Ok (pretty n)
  | VStr s => Ok s
  | VSymbol _ => Throw (TypeError "Cannot convert a Symbol value to a string")
  | VFunction source => Ok source
  | VRegExp source flags => Ok ("/" +:+ source +:+ "/" +:+ flags)
  | VArr items =>
    join_with (fun x => if nullish x then Ok "" else ToString x) "," items
  | VObj _ => Ok "[object Object]"
  end.

(** [a.join(separator)]: [undefined] and [null] print as the empty string. *)
Definition join (separator : string) (a : list value) : outcome string :=
  join_with (fun x => if nullish x then Ok "" else ToString x) separator a.

(** ** Numbers as indices

    An index is a number, and a call may pass any number, or a value that
    the comparisons and [splice] convert to one: [undefined] and a string
    that is no numeral become [NaN].  A symbol and a bigint, which do not
    convert, are left out.  What the program does with an index depends on
    which integer it is, or which two integers it lies between, or which of
    [NaN] and the two infinities it is. *)
Inductive number : Type :=
| Int (n : Z)
| Fraction (floor : Z)
| NaN
| Infinity
| NegInfinity.

(** [x < z], [x > z] and [x >= z] for an integer [z]; a comparison with
    [NaN] is false. *)
Definition number_lt (x : number) (z : Z) : bool :=
  match x with
  | Int n => (n <? z)%Z
  | Fraction floor => (floor <? z)%Z
  | NaN => false
  | Infinity => false
  | NegInfinity => true
  end.

Definition number_gt (x : number) (z : Z) : bool :=
  match x with
  | Int n => (n >? z)%Z
  | Fraction floor => (floor >=? z)%Z
  | NaN => false
  | Infinity => true
  | NegInfinity => false
  end.

Definition number_ge (x : number) (z : Z) : bool :=
  match x with
  | Int n => (n >=? z)%Z
  | Fraction floor => (floor >=? z)%Z
  | NaN => false
  | Infinity => true
  | NegInfinity => false
  end.

(** [ToIntegerOrInfinity(x)]: [NaN] is 0, a fraction is cut towards 0. *)
Inductive integer_or_infinity : Type :=
| Finite (n : Z)
| PlusInfinity
| MinusInfinity.

Definition ToIntegerOrInfinity (x : number) : integer_or_infinity :=
  match x with
  | Int n => Finite n
  | Fraction floor => Finite (if (floor <? 0)%Z then floor + 1 else floor)
  | NaN => Finite 0
  | Infinity => PlusInfinity
  | NegInfinity => MinusInfinity
  end.

(** [a.splice(start, deleteCount, ...items)] on the contents of [a]: the
    removed elements and the new contents. *)
Definition splice (a : list value) (start : integer_or_infinity)
  (deleteCount : Z) (items : list value) : list value * list value :=
  let len := Z.of_nat (length a) in
  let actualStart :=
    match start with
    | MinusInfinity => 0%Z
    | Finite start =>
      if (start <? 0)%Z then Z.max (len + start) 0 else Z.min start len
    | PlusInfinity => len
    end in
  let actualDeleteCount :=
    Z.min (Z.max deleteCount 0) (len - actualStart) in
  (take (Z.to_nat actualDeleteCount) (drop (Z.to_nat actualStart) a),
   take (Z.to_nat actualStart) a ++ items
     ++ drop (Z.to_nat (actualStart + actualDeleteCount)) a).

(** [a[index]] *)
Definition get (a : list value) (index : Z) : value :=
  if (index <? 0)%Z then VUndefined
  else default VUndefined (a !! Z.to_nat index).

(** ** The store

    Arrays are objects: a variable holds a reference to one, and two
    references to the same array see each other's updates.  The store maps
    each array reference to the array's contents. *)

Abbreviation loc := positive.
Abbreviation store := (gmap positive (list value)).

(** A computation on the store that returns or throws; [None] when it uses
    a reference that the store does not hold, which no program does. *)
Definition M (A : Type) : Type := store -> option (outcome A * store).

#[global] Instance M_ret : MRet M := fun A a σ => Some (Ok a, σ).

#[global] Instance M_bind : MBind M := fun A B k m σ =>
  match m σ with
  | None => None
  | Some (Ok a, σ') => k a σ'
  | Some (Throw e, σ') => Some (Throw e, σ')
  end.

Definition lift {A : Type} (o : outcome A) : M A := fun σ => Some (o, σ).

Definition throw {A : Type} (e : exn) : M A := lift (Throw e).

(** [try { m } catch (e) { }] *)
Definition attempt {A : Type} (m : M A) : M unit := fun σ =>
  match m σ with
  | None => None
  | Some (_, σ') => Some (Ok tt, σ')
  end.

Definition array_read (a : loc) : M (list value) := fun σ =>
  match σ !! a with
  | Some xs => Some (Ok xs, σ)
  | None => None
  end.

Definition array_write (a : loc) (xs : list value) : M unit := fun σ =>
  match σ !! a with
  | Some _ => Some (Ok tt, <[a := xs]> σ)
  | None => None
  end.

(** An array literal: a new array, at a reference nothing else holds. *)
Definition alloc (xs : list value) : M loc := fun σ =>
  let a := fresh (dom σ) in Some (Ok a, <[a := xs]> σ).

(** What a caller passes: a reference to an array of the store, which the
    caller may keep, or a value written at the call, an array among them
    being a literal. *)
Inductive argument : Type :=
| ByRef (a : loc)
| ByValue (v : value).

Definition isArrayLike (x : argument) : bool :=
  match x with
  | ByRef _ => true
  | ByValue v => Array_isArray v
  end.

(** The reference an array argument evaluates to. *)
Definition reference (x : argument) : M loc :=
  match x with
  | ByRef a => _ ← array_read a; mret a
  | ByValue v => alloc (spread v)
  end.

(** ** Array methods with a callback

    A callback is a function of the element and its index that returns or
    throws; it is not given the array and does not write the store. *)

(** [a.map(callback)], the index of the first element being [k]. *)
Fixpoint map_from (callback : value -> Z -> outcome value) (k : Z)
  (a : list value) : outcome (list value) :=
  match a with
  | [] => Ok []
  | x :: rest =>
    match callback x k with
    | Throw e => Throw e
    | Ok y =>
      match map_from callback (k + 1) rest with
      | Throw e => Throw e
      | Ok ys => Ok (y :: ys)
      end
    end
  end.

Definition Array_map (callback : value -> Z -> outcome value)
  (a : list value) : outcome (list value) :=
  map_from callback 0 a.

(** [a.filter(callback)] *)
Fixpoint filter_from (callback : value -> Z -> outcome bool) (k : Z)
  (a : list value) : outcome (list value) :=
  match a with
  | [] => Ok []
  | x :: rest =>
    match callback x k with
    | Throw e => Throw e
    | Ok b =>
      match filter_from callback (k + 1) rest with
      | Throw e => Throw e
      | Ok kept => Ok (if b then x :: kept else kept)
      end
    end
  end.

Definition Array_filter (callback : value -> Z -> outcome bool)
  (a : list value) : outcome (list value) :=
  filter_from callback 0 a.

(** [a.reduce(callback, initialValue)], with both arguments given. *)
Fixpoint reduce_from (callback : value -> value -> Z -> outcome value)
  (k : Z) (accumulator : value) (a : list value) : outcome value :=
  match a with
  | [] => Ok accumulator
  | x :: rest =>
    match callback accumulator x k with
    | Throw e => Throw e
    | Ok accumulator => reduce_from callback (k + 1) accumulator rest
    end
  end.

Definition Array_reduce (callback : value -> value -> Z -> outcome value)
  (initialValue : value) (a : list value) : outcome value :=
  reduce_from callback 0 initialValue a.

(** A value that is compared by what it is: [includes] finds it by content.
    An object, a function and a symbol are compared by identity, which
    values by content do not carry; a search for one is left out. *)
Inductive primitive : Type :=
| PUndefined
| PNull
| PBool (b : bool)
| PNum (n : Z)
| PBigInt (n : Z)
| PStr (s : string).

Definition inject (p : primitive) : value :=
  match p with
  | PUndefined => VUndefined
  | PNull => VNull
  | PBool b => VBool b
  | PNum n => VNum n
  | PBigInt n => VBigInt n
  | PStr s => VStr s
  end.

(** [SameValueZero(x, p)] *)
Definition SameValueZero (p : primitive) (x : value) : bool :=
  match p, x with
  | PUndefined, VUndefined => true
  | PNull, VNull => true
  | PBool b, VBool b' => Bool.eqb b b'
  | PNum n, VNum n' => Z.eqb n n'
  | PBigInt n, VBigInt n' => Z.eqb n n'
  | PStr s, VStr s' => String.eqb s s'
  | _, _ => false
  end.

(** [a.includes(p)] *)
Definition Array_includes (a : list value) (p : primitive) : bool :=
  existsb (SameValueZero p) a.

(** ** The class [TypeGuard] *)

Module TypeGuard.

Record t : Type := { data : loc }.

Definition constructor (initialValues : argument) : M t :=
  let initialValues :=
    match initialValues with
    | ByValue VUndefined => ByValue (VArr [])
    | _ => initialValues
    end in
  if negb (isArrayLike initialValues) then
    throw (TypeError "Initial values must be an array-like structure")
  else
    a ← reference initialValues;
    mret {| data := a |}.

Definition typeGuard (v : value) (expectedType : string) : outcome unit :=
  if negb (String.eqb (typeof v) expectedType) then
    Throw (TypeError ("Expected type " +:+ expectedType
                      +:+ ", but received " +:+ typeof v))
  else Ok tt.

Definition push (this : t) (element : value) : M t :=
  _ ← lift (typeGuard element "number");
  xs ← array_read (data this);
  _ ← array_write (data this) (xs ++ [element]);
  mret this.

Definition pop (this : t) : M value :=
  xs ← array_read (data this);
  match array_pop xs with
  | None => mret VUndefined
  | Some (element, rest) =>
    _ ← array_write (data this) rest;
    mret element
  end.

Definition insertAt (this : t) (index : number) (element : value) : M t :=
  xs ← array_read (data this);
  if number_lt index 0 || number_gt index (Z.of_nat (length xs)) then
    throw (RangeError "Index out of bounds")
  else
    _ ← lift (typeGuard element "number");
    _ ← array_write (data this)
          (splice xs (ToIntegerOrInfinity index) 0 [element]).2;
    mret this.

Definition removeAt (this : t) (index : number) : M value :=
  xs ← array_read (data this);
  if number_lt index 0 || number_ge index (Z.of_nat (length xs)) then
    throw (RangeError "Index out of bounds")
  else
    let (removed, rest) := splice xs (ToIntegerOrInfinity index) 1 [] in
    _ ← array_write (data this) rest;
    mret (get removed 0).

Definition at_ (this : t) (index : Z) : M value :=
  xs ← array_read (data this);
  mret (get xs index).

Definition clone (this : t) : M t :=
  xs ← array_read (data this);
  constructor (ByValue (VArr xs)).

Definition toString (this : t) : M string :=
  xs ← array_read (data this);
  s ← lift (join ", " xs);
  mret ("[" +:+ s +:+ "]").

Definition length (this : t) : M Z :=
  xs ← array_read (data this);
  mret (Z.of_nat (List.length xs)).

Definition contains (this : t) (v : primitive) : M bool :=
  xs ← array_read (data this);
  mret (Array_includes xs v).

Definition reduce (this : t)
  (callback : value -> value -> Z -> outcome value) (initialValue : value)
  : M value :=
  xs ← array_read (data this);
  lift (Array_reduce callback initialValue xs).

Definition assertType (element : value) (expectedType : string)
  : outcome unit :=
  if negb (String.eqb (typeof element) expectedType) then
    Throw (TypeError ("Expected type " +:+ expectedType
                      +:+ ", but received " +:+ typeof element))
  else Ok tt.

Definition filter (this : t) (callback : value -> Z -> outcome bool) : M t :=
  xs ← array_read (data this);
  kept ← lift (Array_filter callback xs);
  newArray ← alloc kept;
  constructor (ByRef newArray).

Definition map (this : t) (callback : value -> Z -> outcome value) : M t :=
  xs ← array_read (data this);
  ys ← lift (Array_map callback xs);
  newArray ← alloc ys;
  constructor (ByRef newArray).

End TypeGuard.

(** ** The free functions *)

(** [o[key]] for an object with the own properties [props]. *)
Fixpoint property (props : list (string * value)) (key : string) : value :=
  match props with
  | [] => VUndefined
  | (k, v) :: props => if String.eqb k key then v else property props key
  end.

(** [e.message] for what a [catch] has caught: the message of an error
    object, the property of another object, [undefined] on any other value,
    and a type error on [null] and [undefined], which have no properties. *)
Definition message (e : exn) : outcome value :=
  match e with
  | TypeError msg | RangeError msg | Error msg => Ok (VStr msg)
  | Thrown VUndefined =>
    Throw (TypeError
             "Cannot read properties of undefined (reading 'message')")
  | Thrown VNull =>
    Throw (TypeError "Cannot read properties of null (reading 'message')")
  | Thrown (VObj props) => Ok (property props "message")
  | Thrown _ => Ok VUndefined
  end.

(** [assertType(value, typeChecker)]: the message prints the value. *)
Definition assertType (v : value) (typeChecker : predicate) : outcome value :=
  match typeChecker v with
  | Throw e => Throw e
  | Ok false =>
    match ToString v with
    | Throw e => Throw e
    | Ok s => Throw (Error ("Type assertion failed for value: " +:+ s))
    end
  | Ok true => Ok v
  end.

(** [createChecker(typeCheckFunc)] applied to one argument: what the call
    returns, and what it writes with [console.error].  The [catch] block
    reads [e.message] and prints it, and throws where either of the two
    throws. *)
Definition createChecker (typeCheckFunc : predicate) (v : value)
  : outcome bool * list string :=
  match typeCheckFunc v with
  | Ok b => (Ok b, [])
  | Throw e =>
    match message e with
    | Throw e' => (Throw e', [])
    | Ok m =>
      match ToString m with
      | Throw e' => (Throw e', [])
      | Ok s => (Ok false, ["Type check function failed: " +:+ s])
      end
    end
  end.

(** What was thrown is an error object. *)
Definition error_object (e : exn) : bool :=
  match e with
  | Thrown _ => false
  | _ => true
  end.

(** A function that throws error objects only. *)
Definition throws_errors (typeCheckFunc : predicate) : Prop :=
  forall v e, typeCheckFunc v = Throw e -> error_object e = true.

(** A checker made by [createChecker], as a tester of a predicate set. *)
Definition checker (typeCheckFunc : predicate) : predicate :=
  fun v => (createChecker typeCheckFunc v).1.

(** [PrimitiveTypes], [ComplexTypes] and [Types]: the keys and the names. *)
Definition PrimitiveTypes : list (string * string) :=
  [("STRING", "string"); ("NUMBER", "number"); ("BOOLEAN", "boolean");
   ("FUNCTION", "function"); ("NULL", "null"); ("UNDEFINED", "undefined");
   ("SYMBOL", "symbol"); ("BIGINT", "bigint"); ("VOID", "void");
   ("NEVER", "never")].

Definition ComplexTypes : list (string * string) :=
  [("ARRAY", "array"); ("OBJECT", "object"); ("DATE", "date");
   ("REGEXP", "regexp"); ("MAP", "map"); ("SET", "set");
   ("PROMISE", "promise"); ("ITERABLE", "iterable"); ("FILE", "file");
   ("BLOB", "blob"); ("EMAIL", "email"); ("PHONE", "phone"); ("URL", "url")].

Definition Types : list (string * string) := PrimitiveTypes ++ ComplexTypes.

(** What a call with an index outside its range does at store [σ]. *)
Definition out_of_range {A : Type} (σ : store) : option (outcome A * store) :=
  Some (Throw (RangeError "Index out of bounds"), σ).

(** What [toString] prints for a container that holds [xs]. *)
Definition brackets (xs : list value) : outcome string :=
  match join ", " xs with
  | Ok s => Ok ("[" +:+ s +:+ "]")
  | Throw e => Throw e
  end.

(** A container of three numbers, and a store that holds its array. *)
Definition three : TypeGuard.t := {| TypeGuard.data := 1%positive |}.

Definition three_store : store :=
  {[ 1%positive := [VNum 10; VNum 20; VNum 30] ]}.

(** A mutating call on a container, as a caller issues it. *)
Inductive mutation : Type :=
| Push (element : value)
| Pop
| InsertAt (index : number) (element : value)
| RemoveAt (index : number).

(** One call, its result dropped and its error caught. *)
Definition mutate (c : TypeGuard.t) (m : mutation) : M unit :=
  match m with
  | Push element => attempt (TypeGuard.push c element)
  | Pop => attempt (TypeGuard.pop c)
  | InsertAt index element => attempt (TypeGuard.insertAt c index element)
  | RemoveAt index => attempt (TypeGuard.removeAt c index)
  end.

Fixpoint mutate_all (c : TypeGuard.t) (ms : list mutation) : M unit :=
  match ms with
  | [] => mret tt
  | m :: ms => _ ← mutate c m; mutate_all c ms
  end.

(** ** Checks on the example of the source *)

Definition example_usage : M (list string) :=
  container ← TypeGuard.constructor
    (ByValue (VArr [VNum 10; VNum 20; VNum 30]));
  _ ← TypeGuard.push container (VNum 40);
  _ ← attempt (TypeGuard.push container (VStr "string"));
  _ ← TypeGuard.insertAt container (Int 1) (VNum 15);
  s1 ← TypeGuard.toString container;
  _ ← TypeGuard.removeAt container (Int 2);
  s2 ← TypeGuard.toString container;
  mret [s1; s2].


(** ** Predicate sets used as inputs *)

Definition isString : predicate := fun v => Ok (String.eqb (typeof v) "string").
Definition isNumber : predicate := fun v => Ok (String.eqb (typeof v) "number").
Definition isBoolean : predicate := fun v => Ok (String.eqb (typeof v) "boolean").
Definition never : predicate := fun _ => Ok false.

(** The four testers the traversals call, by [typeof]. *)
Definition typeof_testers : gmap string predicate :=
  <["isString" := isString]> (<["isNumber" := isNumber]>
  (<["isBoolean" := isBoolean]> (<["isRegExp" := never]> ∅))).

(** A set that registers a number tester and nothing else. *)
Definition only_isNumber : gmap string predicate :=
  <["isNumber" := isNumber]> ∅.

(** All four names defined, of which [isNumber] alone accepts anything. *)
Definition numbers_only : gmap string predicate :=
  <["isString" := never]> (<["isNumber" := isNumber]>
  (<["isBoolean" := never]> (<["isRegExp" := never]> ∅))).

Definition isEmail : predicate := fun v =>
  Ok (match v with VStr "a@b.co" => true | _ => false end).

(** [numbers_only] with a further tester, under a name of its own. *)
Definition with_isEmail : gmap string predicate :=
  <["isEmail" := isEmail]> numbers_only.

(** [[1,2],[3,4]] *)
Definition nested_root : value :=
  VArr [VArr [VNum 1; VNum 2]; VArr [VNum 3; VNum 4]].

(** ["a", true, {}] *)
Definition mixed_root : value := VArr [VStr "a"; VBool true; VObj []].

(** The names the traversals call on the predicate set. *)
Definition consulted : list string :=
  ["isString"; "isNumber"; "isBoolean"; "isRegExp"].

(** Testing a leaf against the predicates registered under [names], in that
    order, up to the first that accepts it. *)
Fixpoint first_match (typeEnum : gmap string predicate) (names : list string)
  (item : value) : outcome bool :=
  match names with
  | [] => Ok false
  | name :: names =>
    match call typeEnum name item with
    | Throw e => Throw e
    | Ok true => Ok true
    | Ok false => first_match typeEnum names item
    end
  end.

(** ** What a traversal should visit

    The leaves of a value as the traversals see them: an array and an object
    stand for their children, a regular expression object for none, and
    anything else, [null] included, for itself. *)

(** The leaves from left to right. *)
Fixpoint flatten (v : value) : list value :=
  match v with
  | VArr items => concat (map flatten items)
  | VObj props =>
    concat (map (fun kv => match kv with (_, x) => flatten x end) props)
  | VRegExp _ _ => []
  | _ => [v]
  end.

(** The leaves of the values of a work list, from left to right. *)
Definition leaves (l : list value) : list value := concat (map flatten l).

(** The leaves that lie [d] levels below the top, from left to right. *)
Fixpoint leaves_at (d : nat) (v : value) {struct v} : list value :=
  match v with
  | VArr items =>
    match d with
    | O => []
    | S d' => concat (map (leaves_at d') items)
    end
  | VObj props =>
    match d with
    | O => []
    | S d' =>
      concat (map (fun kv => match kv with (_, x) => leaves_at d' x end) props)
    end
  | VRegExp _ _ => []
  | _ =>
    match d with
    | O => [v]
    | S _ => []
    end
  end.

(** The leaves level by level, down to level [n - 1]. *)
Definition level_order (n : nat) (v : value) : list value :=
  concat (map (fun d => leaves_at d v) (seq 0 n)).

(** The leaf is appended by the chain of testers. *)
Definition accepted (typeEnum : gmap string predicate) (item : value) : bool :=
  match classify typeEnum item with
  | Ok true => true
  | _ => false
  end.

(** No tester throws on a leaf of [v], and none that is called is missing. *)
Definition testers_return (typeEnum : gmap string predicate) (v : value)
  : Prop :=
  forall x, x ∈ flatten v -> exists b, classify typeEnum x = Ok b.

(** Neither an array nor an object: what the traversals hand to the testers. *)
Definition scalar (v : value) : bool :=
  negb (Array_isArray v)
  && negb (String.eqb (typeof v) "object" && not_null v).

(** What the loop body appends to the work list for [item]. *)
Definition expand (item : value) : list value :=
  if Array_isArray item then spread item
  else if String.eqb (typeof item) "object" && not_null item
       then Object_values item
       else [].

(** One level of a work list: its scalars, and the level below. *)
Definition scalars (q : list value) : list value := List.filter scalar q.

Definition children (q : list value) : list value := concat (map expand q).

(** The accepted scalars of [n] levels of a work list, level by level. *)
Fixpoint bfs_levels (typeEnum : gmap string predicate) (n : nat)
  (q : list value) : list value :=
  match n with
  | O => []
  | S n =>
    List.filter (accepted typeEnum) (scalars q)
      ++ bfs_levels typeEnum n (children q)
  end.

(** ** Regular expressions

    The patterns of [typeCheckers], as far as they are made of character
    classes, sequences, alternatives and repetitions, and [test] on a
    pattern anchored at both ends: whether the whole string is in the
    language of the pattern. *)

Module RegExp.

Import Stdlib.Strings.Ascii.

Inductive regex : Type :=
| Fail
| Eps
| Chr (class : Ascii.ascii -> bool)
| Seq (r1 r2 : regex)
| Alt (r1 r2 : regex)
| Star (r : regex).

Fixpoint nullable (r : regex) : bool :=
  match r with
  | Fail => false
  | Eps => true
  | Chr _ => false
  | Seq r1 r2 => nullable r1 && nullable r2
  | Alt r1 r2 => nullable r1 || nullable r2
  | Star _ => true
  end.

(** What is left to match after the character [a]. *)
Fixpoint deriv (a : Ascii.ascii) (r : regex) : regex :=
  match r with
  | Fail => Fail
  | Eps => Fail
  | Chr class => if class a then Eps else Fail
  | Seq r1 r2 =>
    if nullable r1 then Alt (Seq (deriv a r1) r2) (deriv a r2)
    else Seq (deriv a r1) r2
  | Alt r1 r2 => Alt (deriv a r1) (deriv a r2)
  | Star r => Seq (deriv a r) (Star r)
  end.

Fixpoint test_chars (r : regex) (s : list Ascii.ascii) : bool :=
  match s with
  | [] => nullable r
  | a :: s => test_chars (deriv a r) s
  end.

(** [/^r$/.test(s)] *)
Definition test (r : regex) (s : string) : bool :=
  test_chars r (String.list_ascii_of_string s).

(** [r+], [r?], [r{n}], [r{0,n}], [r{lo,hi}] and [r{n,}] *)
Definition Plus (r : regex) : regex := Seq r (Star r).

Definition Opt (r : regex) : regex := Alt r Eps.

Fixpoint Repeat (n : nat) (r : regex) : regex :=
  match n with
  | O => Eps
  | S n => Seq r (Repeat n r)
  end.

Fixpoint Upto (n : nat) (r : regex) : regex :=
  match n with
  | O => Eps
  | S n => Opt (Seq r (Upto n r))
  end.

Definition Between (lo hi : nat) (r : regex) : regex :=
  Seq (Repeat lo r) (Upto (hi - lo) r).

Definition AtLeast (n : nat) (r : regex) : regex :=
  Seq (Repeat n r) (Star r).

(** A literal character, and a range of a class. *)
Definition Lit (c : Ascii.ascii) : regex := Chr (Ascii.eqb c).

Definition range (lo hi a : Ascii.ascii) : bool :=
  Nat.leb (Ascii.nat_of_ascii lo) (Ascii.nat_of_ascii a)
  && Nat.leb (Ascii.nat_of_ascii a) (Ascii.nat_of_ascii hi).

(** [\d], [[1-9]], [[a-zA-Z]], [[a-zA-Z0-9._-]] and [[a-zA-Z0-9.-]] *)
Definition digit (a : Ascii.ascii) : bool := range "0"%char "9"%char a.

Definition nonzero_digit (a : Ascii.ascii) : bool := range "1"%char "9"%char a.

Definition letter (a : Ascii.ascii) : bool := range "a"%char "z"%char a || range "A"%char "Z"%char a.

Definition local_char (a : Ascii.ascii) : bool :=
  range "a"%char "z"%char a || range "A"%char "Z"%char a || range "0"%char "9"%char a
  || Ascii.eqb a "."%char || Ascii.eqb a "_"%char || Ascii.eqb a "-"%char.

Definition domain_char (a : Ascii.ascii) : bool :=
  range "a"%char "z"%char a || range "A"%char "Z"%char a || range "0"%char "9"%char a
  || Ascii.eqb a "."%char || Ascii.eqb a "-"%char.

(** [\s], and its complement [^\s]: the white space and the line ends
    among the code units below 256, which are what a character stands for. *)
Definition whitespace (a : Ascii.ascii) : bool :=
  let n := Ascii.nat_of_ascii a in
  Nat.eqb n 9 || Nat.eqb n 10 || Nat.eqb n 11 || Nat.eqb n 12
  || Nat.eqb n 13 || Nat.eqb n 32 || Nat.eqb n 160.

Definition non_space (a : Ascii.ascii) : bool := negb (whitespace a).

(** [.], without the flag s: any character but a line end. *)
Definition any_char (a : Ascii.ascii) : bool :=
  let n := Ascii.nat_of_ascii a in negb (Nat.eqb n 10 || Nat.eqb n 13).

(** [[^\s/$.?#]] *)
Definition host_first (a : Ascii.ascii) : bool :=
  negb (whitespace a || Ascii.eqb a "/"%char || Ascii.eqb a "$"%char
        || Ascii.eqb a "."%char || Ascii.eqb a "?"%char
        || Ascii.eqb a "#"%char).

(** Under the flag i two characters match when their upper cases are the
    same; against a character of a pattern below 128 only the upper case of
    the letters a to z counts. *)
Definition upper (a : Ascii.ascii) : Ascii.ascii :=
  if range "a"%char "z"%char a
  then Ascii.ascii_of_nat (Ascii.nat_of_ascii a - 32)
  else a.

Definition ci (c a : Ascii.ascii) : bool := Ascii.eqb (upper a) (upper c).

(** A run of literal characters under the flag i. *)
Fixpoint Word_i (w : list Ascii.ascii) : regex :=
  match w with
  | [] => Eps
  | c :: w => Seq (Chr (ci c)) (Word_i w)
  end.

(** The characters that the patterns name. *)
Definition at_sign : Ascii.ascii := "@"%char.
Definition dot : Ascii.ascii := "."%char.
Definition plus_sign : Ascii.ascii := "+"%char.

End RegExp.

Import RegExp.

Module typeCheckers.

(** [^[a-zA-Z0-9._-]+@[a-zA-Z0-9.-]+\.[a-zA-Z]{2,}$] *)
Definition email_pattern : regex :=
  Seq (Plus (Chr local_char))
    (Seq (Lit at_sign)
       (Seq (Plus (Chr domain_char))
          (Seq (Lit dot) (AtLeast 2 (Chr letter))))).

(** [^\+?[1-9]\d{1,14}$] *)
Definition phone_pattern : regex :=
  Seq (Opt (Lit plus_sign)) (Seq (Chr nonzero_digit) (Between 1 14 (Chr digit))).

(** [^(https?|ftp):\/\/[^\s/$.?#].[^\s]*$], with the flag i *)
Definition url_pattern : regex :=
  Seq (Alt (Seq (Word_i (String.list_ascii_of_string "http"))
              (Opt (Word_i (String.list_ascii_of_string "s"))))
         (Word_i (String.list_ascii_of_string "ftp")))
    (Seq (Word_i (String.list_ascii_of_string "://"))
       (Seq (Chr host_first)
          (Seq (Chr any_char) (Star (Chr non_space))))).

(** [test] converts its argument to a string first. *)
Definition isEmail : predicate := fun v =>
  match ToString v with
  | Ok s => Ok (test email_pattern s)
  | Throw e => Throw e
  end.

Definition isPhone : predicate := fun v =>
  match ToString v with
  | Ok s => Ok (test phone_pattern s)
  | Throw e => Throw e
  end.

Definition isUrl : predicate := fun v =>
  match ToString v with
  | Ok s => Ok (test url_pattern s)
  | Throw e => Throw e
  end.

End typeCheckers.

(** The strings of a pattern. *)
Inductive matches : regex -> list Ascii.ascii -> Prop :=
| matches_Eps : matches Eps []
| matches_Chr class a : class a = true -> matches (Chr class) [a]
| matches_Seq r1 r2 s1 s2 :
    matches r1 s1 -> matches r2 s2 -> matches (Seq r1 r2) (s1 ++ s2)
| matches_Alt_l r1 r2 s : matches r1 s -> matches (Alt r1 r2) s
| matches_Alt_r r1 r2 s : matches r2 s -> matches (Alt r1 r2) s
| matches_Star_nil r : matches (Star r) []
| matches_Star_app r s1 s2 :
    matches r s1 -> matches (Star r) s2 -> matches (Star r) (s1 ++ s2).

(** ** Callbacks used as inputs *)

(** [x => x * 2], on numbers; [undefined] stands for its result elsewhere. *)
Definition double : value -> Z -> outcome value := fun x _ =>
  match x with
  | VNum n => Ok (VNum (n * 2))
  | _ => Ok VUndefined
  end.

(** An integer that a number holds exactly: one from -2^53 to 2^53. *)
Definition safe (n : Z) : bool := (- 2 ^ 53 <=? n)%Z && (n <=? 2 ^ 53)%Z.

(** [(acc, val) => acc + val], on numbers whose sum is an integer that a
    number holds exactly, where the addition does not round; [undefined]
    stands for its result elsewhere. *)
Definition plus : value -> value -> Z -> outcome value := fun acc val _ =>
  match acc, val with
  | VNum a, VNum b =>
    if safe a && safe b && safe (a + b) then Ok (VNum (a + b))
    else Ok VUndefined
  | _, _ => Ok VUndefined
  end.

(** [x => x > 15], on numbers. *)
Definition above_15 : value -> Z -> outcome bool := fun x _ =>
  match x with
  | VNum n => Ok (15 <? n)%Z
  | _ => Ok false
  end.

(** The sum of the numbers of an array. *)
Definition total (a : list value) : Z :=
  foldr (fun x acc => match x with VNum n => (n + acc)%Z | _ => acc end) 0%Z a.

(** The example of the source, to its end: the map and the sum. *)
Definition example_usage_end : M (string * value) :=
  container ← TypeGuard.constructor
    (ByValue (VArr [VNum 10; VNum 20; VNum 30]));
  _ ← TypeGuard.push container (VNum 40);
  _ ← TypeGuard.insertAt container (Int 1) (VNum 15);
  _ ← TypeGuard.removeAt container (Int 2);
  transformed ← TypeGuard.map container double;
  s ← TypeGuard.toString transformed;
  sum ← TypeGuard.reduce container plus (VNum 0);
  mret (s, sum).

(** The strings that [typeof] returns. *)
Definition typeof_names : list string :=
  ["undefined"; "object"; "boolean"; "number"; "bigint"; "string"; "symbol";
   "function"].

(** The names of [Types] that [typeof] never returns. *)
Definition names_beyond_typeof : list string :=
  ["null"; "void"; "never"; "array"; "date"; "regexp"; "map"; "set";
   "promise"; "iterable"; "file"; "blob"; "email"; "phone"; "url"].

(** A tester that throws on every value. *)
Definition faulty : predicate := fun _ => Throw (Error "faulty tester").

(** The four testers of the traversals, each made by [createChecker]. *)
Definition checked_testers : gmap string predicate :=
  <["isString" := checker isString]> (<["isNumber" := checker faulty]>
  (<["isBoolean" := checker isBoolean]> (<["isRegExp" := checker never]> ∅))).

(** Testing the leaves [ls] in their order, as a loop does with the ones it
    reaches: the accepted ones are appended to [result], and the first
    error of the chain of testers ends the run. *)
Fixpoint test_leaves (typeEnum : gmap string predicate) (ls : list value)
  (result : list value) : outcome (list value) :=
  match ls with
  | [] => Ok result
  | x :: ls =>
    match classify typeEnum x with
    | Throw e => Throw e
    | Ok true => test_leaves typeEnum ls (result ++ [x])
    | Ok false => test_leaves typeEnum ls result
    end
  end.

(** The same, level by level for [n] levels of a work list. *)
Fixpoint bfs_tests (typeEnum : gmap string predicate) (n : nat)
  (q result : list value) : outcome (list value) :=
  match n with
  | O => Ok result
  | S n =>
    match test_leaves typeEnum (scalars q) result with
    | Throw e => Throw e
    | Ok result => bfs_tests typeEnum n (children q) result
    end
  end.



(** The elements of an array at which a callback returns true, in their
    order: each element is paired with its index, the pairs are filtered
    and the elements are taken back. *)
Definition says_true (callback : value -> Z -> outcome bool)
  (p : Z * value) : bool :=
  match callback p.2 p.1 with
  | Ok true => true
  | _ => false
  end.

Definition chosen (callback : value -> Z -> outcome bool) (xs : list value)
  : list value :=
  (List.filter (says_true callback) (imap (fun i x => (Z.of_nat i, x)) xs)).*2.

(** ** Proof helpers *)

(** Unfolds a method down to the reads and writes of the store. *)
Ltac run :=
  unfold TypeGuard.push, TypeGuard.pop, TypeGuard.insertAt,
    TypeGuard.removeAt, TypeGuard.at_, TypeGuard.length, TypeGuard.toString,
    TypeGuard.clone, TypeGuard.constructor, reference, alloc,
    mbind, M_bind, mret, M_ret, lift, throw, attempt, array_read,
    array_write; cbn.

Arguments splice : simpl never.
Arguments get : simpl never.
Arguments join : simpl never.

(** ** The example of the source prints what its comments say *)

Example example_usage_prints :
  fst <$> example_usage ∅ = Some (Ok ["[10, 15, 20, 30, 40]"; "[10, 15, 30, 40]"]).
Proof. vm_compute. reflexivity. Qed.

(** ** The traversals return *)

Section Termination.

Variable typeEnum : gmap string predicate.

Lemma weight_pos (v : value) : 1 <= weight v.
Proof. destruct v; simpl; lia. Qed.

Lemma weight_props (props : list (string * value)) :
  map (fun kv => match kv with (_, x) => weight x end) props
  = map weight props.*2.
Proof.
  induction props as [|[k x] props IH]; simpl; [reflexivity|].
  now rewrite IH.
Qed.

Lemma weight_spread (item : value) :
  Array_isArray item = true ->
  weight item = S (list_sum (map weight (spread item))).
Proof. destruct item; simpl; intros H; try discriminate; reflexivity. Qed.

Lemma weight_Object_values (item : value) :
  list_sum (map weight (Object_values item)) < weight item.
Proof.
  destruct item; simpl; try lia.
  rewrite weight_props. lia.
Qed.

Lemma array_pop_snoc (stack : list value) :
  match array_pop stack with
  | None => stack = []
  | Some (item, rest) => stack = rest ++ [item]
  end.
Proof.
  unfold array_pop. destruct (reverse stack) as [|x r] eqn:E.
  - apply (f_equal reverse) in E. now rewrite reverse_involutive in E.
  - apply (f_equal reverse) in E.
    rewrite reverse_involutive, reverse_cons in E. exact E.
Qed.

Lemma array_pop_app (rest : list value) (item : value) :
  array_pop (rest ++ [item]) = Some (item, rest).
Proof.
  unfold array_pop. now rewrite reverse_snoc, reverse_involutive.
Qed.

Lemma bfs_loop_total (fuel : nat) :
  forall queue result,
    list_sum (map weight queue) < fuel ->
    is_Some (bfs_loop typeEnum fuel queue result).
Proof.
  induction fuel as [|fuel IH]; intros queue result Hlt; [lia|].
  simpl. destruct queue as [|item queue]; simpl in *; [eauto|].
  destruct (Array_isArray item) eqn:Harr.
  - apply IH. rewrite map_app, list_sum_app.
    rewrite (weight_spread item Harr) in Hlt. lia.
  - destruct (String.eqb (typeof item) "object" && not_null item).
    + apply IH. rewrite map_app, list_sum_app.
      pose proof (weight_Object_values item). lia.
    + pose proof (weight_pos item).
      destruct (classify typeEnum item) as [[|]|e]; [apply IH; lia .. | eauto].
Qed.

Lemma dfs_loop_total (fuel : nat) :
  forall stack result,
    list_sum (map weight stack) < fuel ->
    is_Some (dfs_loop typeEnum fuel stack result).
Proof.
  induction fuel as [|fuel IH]; intros stack result Hlt; [lia|].
  simpl. pose proof (array_pop_snoc stack) as Hpop.
  destruct (array_pop stack) as [[item rest]|]; [|eauto].
  subst stack. rewrite map_app, list_sum_app in Hlt. simpl in Hlt.
  destruct (Array_isArray item) eqn:Harr.
  - apply IH. rewrite map_app, list_sum_app.
    rewrite (weight_spread item Harr) in Hlt. lia.
  - destruct (String.eqb (typeof item) "object" && not_null item).
    + apply IH. rewrite map_app, list_sum_app.
      pose proof (weight_Object_values item). lia.
    + pose proof (weight_pos item).
      destruct (classify typeEnum item) as [[|]|e]; [apply IH; lia .. | eauto].
Qed.

(** Both traversals end on every value: the bound on the iterations is
    never reached. *)
Lemma bfsTraversal_total (obj : value) : is_Some (bfsTraversal obj typeEnum).
Proof. apply bfs_loop_total. simpl. lia. Qed.

Lemma dfsTraversal_total (obj : value) : is_Some (dfsTraversal obj typeEnum).
Proof. apply dfs_loop_total. simpl. lia. Qed.

(** Every element of a result was accepted by the chain of testers. *)
Lemma bfs_loop_accepted (fuel : nat) :
  forall queue result r,
    Forall (fun x => classify typeEnum x = Ok true) result ->
    bfs_loop typeEnum fuel queue result = Some (Ok r) ->
    Forall (fun x => classify typeEnum x = Ok true) r.
Proof.
  induction fuel as [|fuel IH]; intros queue result r Hres; simpl;
    [discriminate|].
  destruct queue as [|item queue]; simpl.
  { intros [= <-]. exact Hres. }
  destruct (Array_isArray item); [now apply IH|].
  destruct (String.eqb (typeof item) "object" && not_null item);
    [now apply IH|].
  destruct (classify typeEnum item) as [[|]|e] eqn:E; [| now apply IH | discriminate].
  apply IH. apply Forall_app. split; [exact Hres | now constructor].
Qed.

Lemma dfs_loop_accepted (fuel : nat) :
  forall stack result r,
    Forall (fun x => classify typeEnum x = Ok true) result ->
    dfs_loop typeEnum fuel stack result = Some (Ok r) ->
    Forall (fun x => classify typeEnum x = Ok true) r.
Proof.
  induction fuel as [|fuel IH]; intros stack result r Hres; simpl;
    [discriminate|].
  destruct (array_pop stack) as [[item rest]|].
  2:{ intros [= <-]. exact Hres. }
  destruct (Array_isArray item); [now apply IH|].
  destruct (String.eqb (typeof item) "object" && not_null item);
    [now apply IH|].
  destruct (classify typeEnum item) as [[|]|e] eqn:E; [| now apply IH | discriminate].
  apply IH. apply Forall_app. split; [exact Hres | now constructor].
Qed.

End Termination.

(** ** The order of the results *)

(** C5: on [[1,2],[3,4]], with a predicate set that accepts numbers, the
    breadth-first traversal returns [1,2,3,4]: the leaves in first-in
    first-out order, the children of each array enqueued in their order. *)
Theorem bfsTraversal_nested_root (typeEnum : gmap string predicate) :
  (forall n, classify typeEnum (VNum n) = Ok true) ->
  bfsTraversal nested_root typeEnum
  = Some (Ok [VNum 1; VNum 2; VNum 3; VNum 4]).
Proof.
  intros Hnum. unfold bfsTraversal, nested_root. simpl.
  rewrite !Hnum. reflexivity.
Qed.

Lemma typeof_testers_accept_numbers (n : Z) :
  classify typeof_testers (VNum n) = Ok true.
Proof. reflexivity. Qed.

Lemma bfsTraversal_nested_root_witness :
  (forall n, classify typeof_testers (VNum n) = Ok true)
  /\ bfsTraversal nested_root typeof_testers
     = Some (Ok [VNum 1; VNum 2; VNum 3; VNum 4]).
Proof.
  split.
  - exact typeof_testers_accept_numbers.
  - apply (bfsTraversal_nested_root typeof_testers).
    exact typeof_testers_accept_numbers.
Defined.

(** C1, as the claim has it, fails: the depth-first traversal of
    [[1,2],[3,4]] does not return [3,4,1,2]. *)
Lemma dfsTraversal_nested_root_not_3412 :
  (forall n, classify typeof_testers (VNum n) = Ok true)
  /\ dfsTraversal nested_root typeof_testers
     <> Some (Ok [VNum 3; VNum 4; VNum 1; VNum 2]).
Proof.
  split; [exact typeof_testers_accept_numbers|].
  vm_compute. discriminate.
Qed.

(** C1, amended: on [[1,2],[3,4]], with a predicate set that accepts
    numbers, the depth-first traversal returns [4,3,2,1]: the stack gives
    back the rightmost child first at every array, the innermost ones
    included. *)
Theorem dfsTraversal_nested_root (typeEnum : gmap string predicate) :
  (forall n, classify typeEnum (VNum n) = Ok true) ->
  dfsTraversal nested_root typeEnum
  = Some (Ok [VNum 4; VNum 3; VNum 2; VNum 1]).
Proof.
  intros Hnum. unfold dfsTraversal, nested_root. simpl.
  rewrite Hnum. simpl. rewrite Hnum. simpl. rewrite !Hnum. reflexivity.
Qed.

Lemma dfsTraversal_nested_root_witness :
  (forall n, classify typeof_testers (VNum n) = Ok true)
  /\ dfsTraversal nested_root typeof_testers
     = Some (Ok [VNum 4; VNum 3; VNum 2; VNum 1]).
Proof.
  split.
  - exact typeof_testers_accept_numbers.
  - apply (dfsTraversal_nested_root typeof_testers).
    exact typeof_testers_accept_numbers.
Defined.

(** ** Which predicates a traversal calls *)

Section Consulted.

Variable typeEnum : gmap string predicate.

Lemma classify_first_match (item : value) :
  classify typeEnum item = first_match typeEnum consulted item.
Proof.
  unfold classify, consulted, first_match, mbind, outcome_bind, mret,
    outcome_ret.
  repeat (match goal with
          | |- context [call typeEnum ?n item] =>
            destruct (call typeEnum n item) as [[|]|]; try reflexivity
          end).
Qed.

Lemma call_insert_ne (name name' : string) (p : predicate) (item : value) :
  name <> name' ->
  call (<[name := p]> typeEnum) name' item = call typeEnum name' item.
Proof. intros Hne. unfold call. now rewrite lookup_insert_ne. Qed.

Lemma classify_insert (name : string) (p : predicate) (item : value) :
  name ∉ consulted ->
  classify (<[name := p]> typeEnum) item = classify typeEnum item.
Proof.
  unfold consulted. rewrite !not_elem_of_cons. intros (H1 & H2 & H3 & H4 & _).
  unfold classify. now rewrite !call_insert_ne.
Qed.

Lemma bfs_loop_ext (typeEnum' : gmap string predicate) (fuel : nat) :
  (forall item, classify typeEnum' item = classify typeEnum item) ->
  forall queue result,
    bfs_loop typeEnum' fuel queue result = bfs_loop typeEnum fuel queue result.
Proof.
  intros Hext. induction fuel as [|fuel IH]; intros queue result;
    [reflexivity|].
  simpl. destruct (shift queue) as [[item rest]|]; [|reflexivity].
  rewrite Hext, !IH. reflexivity.
Qed.

Lemma dfs_loop_ext (typeEnum' : gmap string predicate) (fuel : nat) :
  (forall item, classify typeEnum' item = classify typeEnum item) ->
  forall stack result,
    dfs_loop typeEnum' fuel stack result = dfs_loop typeEnum fuel stack result.
Proof.
  intros Hext. induction fuel as [|fuel IH]; intros stack result;
    [reflexivity|].
  simpl. destruct (array_pop stack) as [[item rest]|]; [|reflexivity].
  rewrite Hext, !IH. reflexivity.
Qed.

(** C2, amended: a traversal tests a leaf against the predicates the set
    registers as isString, isNumber, isBoolean and isRegExp, in that order
    and up to the first that accepts it; a predicate registered under any
    other name is not called, and adding one changes no result. *)
Theorem traversal_consults_four (name : string) (p : predicate) (obj : value) :
  name ∉ consulted ->
  (forall item, classify typeEnum item = first_match typeEnum consulted item)
  /\ bfsTraversal obj (<[name := p]> typeEnum) = bfsTraversal obj typeEnum
  /\ dfsTraversal obj (<[name := p]> typeEnum) = dfsTraversal obj typeEnum.
Proof.
  intros Hname. split; [exact classify_first_match|].
  split.
  - apply bfs_loop_ext. intros item. now apply classify_insert.
  - apply dfs_loop_ext. intros item. now apply classify_insert.
Qed.

(** C3, amended: a leaf that the four testers all reject is dropped and
    raises nothing, and a result holds accepted leaves only; on
    ["a", true, {}], with a predicate set whose four testers reject "a" and
    true, both traversals return the empty sequence. *)
Theorem rejected_leaf_dropped :
  classify typeEnum (VStr "a") = Ok false ->
  classify typeEnum (VBool true) = Ok false ->
  bfsTraversal mixed_root typeEnum = Some (Ok [])
  /\ dfsTraversal mixed_root typeEnum = Some (Ok [])
  /\ (forall obj r,
        bfsTraversal obj typeEnum = Some (Ok r)
        \/ dfsTraversal obj typeEnum = Some (Ok r) ->
        Forall (fun x => classify typeEnum x = Ok true) r).
Proof.
  intros Ha Htrue. split; [|split].
  - unfold bfsTraversal, mixed_root. simpl. rewrite Ha, Htrue. reflexivity.
  - unfold dfsTraversal, mixed_root. simpl. rewrite Htrue. simpl.
    rewrite Ha. reflexivity.
  - intros obj r [H|H].
    + eapply bfs_loop_accepted; [|exact H]. constructor.
    + eapply dfs_loop_accepted; [|exact H]. constructor.
Qed.

End Consulted.

Lemma isEmail_not_consulted : "isEmail" ∉ consulted.
Proof.
  unfold consulted. rewrite !not_elem_of_cons.
  repeat split; try discriminate. apply not_elem_of_nil.
Qed.

Lemma traversal_consults_four_witness :
  ("isEmail" ∉ consulted)
  /\ bfsTraversal (VArr [VStr "a@b.co"]) with_isEmail
     = bfsTraversal (VArr [VStr "a@b.co"]) numbers_only.
Proof.
  split; [exact isEmail_not_consulted|].
  apply (traversal_consults_four numbers_only "isEmail" isEmail
           (VArr [VStr "a@b.co"]) isEmail_not_consulted).
Defined.

(** C2, as the claim has it, fails: a set that registers a tester under
    isEmail, which accepts the leaf, returns a result without the leaf. *)
Lemma added_predicate_not_consulted :
  call with_isEmail "isEmail" (VStr "a@b.co") = Ok true
  /\ bfsTraversal (VArr [VStr "a@b.co"]) with_isEmail = Some (Ok [])
  /\ dfsTraversal (VArr [VStr "a@b.co"]) with_isEmail = Some (Ok []).
Proof. repeat split; vm_compute; reflexivity. Qed.

Lemma rejected_leaf_dropped_witness :
  classify numbers_only (VStr "a") = Ok false
  /\ classify numbers_only (VBool true) = Ok false
  /\ bfsTraversal mixed_root numbers_only = Some (Ok []).
Proof.
  split; [reflexivity|]. split; [reflexivity|].
  apply (rejected_leaf_dropped numbers_only); reflexivity.
Defined.

(** C3, as the claim has it, fails: with a predicate set that holds a
    number tester only, the traversal of ["a", true, {}] throws at "a". *)
Lemma only_number_predicate_throws :
  bfsTraversal mixed_root only_isNumber
  = Some (Throw (TypeError "typeEnum.isString is not a function"))
  /\ dfsTraversal mixed_root only_isNumber
     = Some (Throw (TypeError "typeEnum.isString is not a function")).
Proof. split; vm_compute; reflexivity. Qed.

(** ** The container *)

Lemma typeGuard_number (element : value) :
  typeof element = "number" -> TypeGuard.typeGuard element "number" = Ok tt.
Proof. unfold TypeGuard.typeGuard. intros ->. reflexivity. Qed.

Lemma typeGuard_mismatch (element : value) :
  typeof element <> "number" ->
  TypeGuard.typeGuard element "number"
  = Throw (TypeError ("Expected type number, but received "
                      +:+ typeof element)).
Proof.
  unfold TypeGuard.typeGuard. intros Hne.
  apply String.eqb_neq in Hne. rewrite Hne. reflexivity.
Qed.

Section Container.

Variable this : TypeGuard.t.

Lemma push_number (element : value) (σ : store) (xs : list value) :
  σ !! TypeGuard.data this = Some xs ->
  typeof element = "number" ->
  TypeGuard.push this element σ
  = Some (Ok this, <[TypeGuard.data this := xs ++ [element]]> σ).
Proof.
  intros Hxs Hnum. run. rewrite (typeGuard_number _ Hnum), Hxs. simpl.
  rewrite Hxs. reflexivity.
Qed.

Lemma push_mismatch (element : value) (σ : store) :
  typeof element <> "number" ->
  TypeGuard.push this element σ
  = Some (Throw (TypeError ("Expected type number, but received "
                            +:+ typeof element)), σ).
Proof. intros Hne. run. rewrite (typeGuard_mismatch _ Hne). reflexivity. Qed.

(** C6: a push of an element whose [typeof] is not number throws the
    type-mismatch error and leaves the store, hence the length and every
    element of the container, as they were. *)
Theorem push_mismatch_unchanged (element : value) (σ : store) :
  typeof element <> "number" ->
  TypeGuard.push this element σ
  = Some (Throw (TypeError ("Expected type number, but received "
                            +:+ typeof element)), σ)
  /\ (forall σ', snd <$> TypeGuard.push this element σ = Some σ' ->
        TypeGuard.length this σ' = TypeGuard.length this σ
        /\ forall index,
            TypeGuard.at_ this index σ' = TypeGuard.at_ this index σ).
Proof.
  intros Hne. pose proof (push_mismatch element σ Hne) as Hpush.
  split; [exact Hpush|].
  rewrite Hpush. simpl. intros σ' [= <-]. split; reflexivity.
Qed.

Lemma splice_insert (xs : list value) (index : Z) (element : value) :
  (0 <= index <= Z.of_nat (length xs))%Z ->
  splice xs (Finite index) 0 [element]
  = ([], take (Z.to_nat index) xs ++ element :: drop (Z.to_nat index) xs).
Proof.
  intros Hrange. unfold splice.
  destruct (Z.ltb_spec index 0) as [Hneg|_]; [lia|].
  rewrite (Z.min_l index) by lia.
  rewrite (Z.max_l 0 0), (Z.min_l 0) by lia.
  rewrite Z.add_0_r. reflexivity.
Qed.

Lemma take_1_drop (xs : list value) (i : nat) :
  i < length xs ->
  take 1 (drop i xs) = [default VUndefined (xs !! i)].
Proof.
  intros Hlt. destruct (lookup_lt_is_Some_2 xs i Hlt) as [x Hx].
  rewrite Hx. simpl.
  pose proof (lookup_drop xs i 0) as Hd. rewrite Nat.add_0_r, Hx in Hd.
  destruct (drop i xs) as [|y ys]; [discriminate|].
  simpl in Hd. injection Hd as ->. reflexivity.
Qed.

Lemma splice_remove (xs : list value) (index : Z) :
  (0 <= index < Z.of_nat (length xs))%Z ->
  splice xs (Finite index) 1 []
  = ([get xs index],
     take (Z.to_nat index) xs ++ drop (S (Z.to_nat index)) xs).
Proof.
  intros Hrange. unfold splice, get.
  destruct (Z.ltb_spec index 0) as [Hneg|_]; [lia|].
  rewrite (Z.min_l index) by lia.
  rewrite (Z.max_l 1 0), (Z.min_l 1) by lia.
  rewrite take_1_drop by lia.
  replace (Z.to_nat (index + 1)) with (S (Z.to_nat index)) by lia.
  reflexivity.
Qed.

Lemma insertAt_in_range (index : Z) (element : value) (σ : store)
  (xs : list value) :
  σ !! TypeGuard.data this = Some xs ->
  (0 <= index <= Z.of_nat (length xs))%Z ->
  typeof element = "number" ->
  TypeGuard.insertAt this (Int index) element σ
  = Some (Ok this,
          <[TypeGuard.data this :=
              take (Z.to_nat index) xs ++ element :: drop (Z.to_nat index) xs]>
            σ).
Proof.
  intros Hxs Hrange Hnum. run. rewrite Hxs.
  destruct (Z.ltb_spec index 0) as [Hneg|_]; [lia|].
  destruct (Z.gtb_spec index (Z.of_nat (length xs))) as [Hgt|_]; [lia|].
  cbn. rewrite (typeGuard_number _ Hnum), Hxs.
  rewrite splice_insert by lia. reflexivity.
Qed.

Lemma insertAt_out_of_range (index : Z) (element : value) (σ : store)
  (xs : list value) :
  σ !! TypeGuard.data this = Some xs ->
  ~ (0 <= index <= Z.of_nat (length xs))%Z ->
  TypeGuard.insertAt this (Int index) element σ
  = Some (Throw (RangeError "Index out of bounds"), σ).
Proof.
  intros Hxs Hrange. run. rewrite Hxs.
  destruct (Z.ltb_spec index 0) as [Hneg|Hpos]; [reflexivity|].
  destruct (Z.gtb_spec index (Z.of_nat (length xs))) as [Hgt|Hle];
    [reflexivity|lia].
Qed.

Lemma insertAt_mismatch (index : Z) (element : value) (σ : store)
  (xs : list value) :
  σ !! TypeGuard.data this = Some xs ->
  (0 <= index <= Z.of_nat (length xs))%Z ->
  typeof element <> "number" ->
  TypeGuard.insertAt this (Int index) element σ
  = Some (Throw (TypeError ("Expected type number, but received "
                            +:+ typeof element)), σ).
Proof.
  intros Hxs Hrange Hne. run. rewrite Hxs.
  destruct (Z.ltb_spec index 0) as [Hneg|_]; [lia|].
  destruct (Z.gtb_spec index (Z.of_nat (length xs))) as [Hgt|_]; [lia|].
  cbn. rewrite (typeGuard_mismatch _ Hne). reflexivity.
Qed.

Lemma removeAt_in_range (index : Z) (σ : store) (xs : list value) :
  σ !! TypeGuard.data this = Some xs ->
  (0 <= index < Z.of_nat (length xs))%Z ->
  TypeGuard.removeAt this (Int index) σ
  = Some (Ok (get xs index),
          <[TypeGuard.data this :=
              take (Z.to_nat index) xs ++ drop (S (Z.to_nat index)) xs]> σ).
Proof.
  intros Hxs Hrange. run. rewrite Hxs.
  destruct (Z.ltb_spec index 0) as [Hneg|_]; [lia|].
  destruct (Z.geb_spec index (Z.of_nat (length xs))) as [Hge|_]; [lia|].
  cbn. rewrite splice_remove by lia. rewrite Hxs. reflexivity.
Qed.

Lemma removeAt_out_of_range (index : Z) (σ : store) (xs : list value) :
  σ !! TypeGuard.data this = Some xs ->
  ~ (0 <= index < Z.of_nat (length xs))%Z ->
  TypeGuard.removeAt this (Int index) σ
  = Some (Throw (RangeError "Index out of bounds"), σ).
Proof.
  intros Hxs Hrange. run. rewrite Hxs.
  destruct (Z.ltb_spec index 0) as [Hneg|Hpos]; [reflexivity|].
  destruct (Z.geb_spec index (Z.of_nat (length xs))) as [Hge|Hlt];
    [reflexivity|lia].
Qed.

Lemma splice_Forall (P : value -> Prop) (xs : list value)
  (start : integer_or_infinity) (deleteCount : Z) (items : list value) :
  Forall P xs -> Forall P items ->
  Forall P (splice xs start deleteCount items).2.
Proof.
  intros Hxs Hitems. unfold splice. simpl.
  apply Forall_app. split; [now apply Forall_take|].
  apply Forall_app. split; [exact Hitems | now apply Forall_drop].
Qed.

(** What a call of insertAt and of removeAt does, for any index: it throws
    and writes nothing, or it writes what [splice] leaves. *)
Lemma insertAt_attempt (index : number) (element : value) (σ : store)
  (xs : list value) :
  σ !! TypeGuard.data this = Some xs ->
  (exists err, TypeGuard.insertAt this index element σ = Some (Throw err, σ))
  \/ (typeof element = "number"
      /\ TypeGuard.insertAt this index element σ
         = Some (Ok this,
                 <[TypeGuard.data this :=
                     (splice xs (ToIntegerOrInfinity index) 0 [element]).2]>
                   σ)).
Proof.
  intros Hxs. run. rewrite Hxs.
  destruct (number_lt index 0 || number_gt index (Z.of_nat (length xs)));
    [left; eauto|].
  cbn. destruct (decide (typeof element = "number")) as [Hnum|Hne].
  - right. split; [exact Hnum|].
    rewrite (typeGuard_number _ Hnum), Hxs. reflexivity.
  - left. rewrite (typeGuard_mismatch _ Hne). eauto.
Qed.

Lemma removeAt_attempt (index : number) (σ : store) (xs : list value) :
  σ !! TypeGuard.data this = Some xs ->
  (exists err, TypeGuard.removeAt this index σ = Some (Throw err, σ))
  \/ (exists v,
        TypeGuard.removeAt this index σ
        = Some (Ok v,
                <[TypeGuard.data this :=
                    (splice xs (ToIntegerOrInfinity index) 1 []).2]> σ)).
Proof.
  intros Hxs. run. rewrite Hxs.
  destruct (number_lt index 0 || number_ge index (Z.of_nat (length xs)));
    [left; eauto|].
  cbn. destruct (splice xs (ToIntegerOrInfinity index) 1 []) as [removed rest].
  right. cbn. rewrite Hxs. eauto.
Qed.







Lemma pop_cases (σ : store) (xs : list value) :
  σ !! TypeGuard.data this = Some xs ->
  (xs = [] /\ TypeGuard.pop this σ = Some (Ok VUndefined, σ))
  \/ (exists ys x, xs = ys ++ [x]
        /\ TypeGuard.pop this σ
           = Some (Ok x, <[TypeGuard.data this := ys]> σ)).
Proof.
  intros Hxs. pose proof (array_pop_snoc xs) as Hsnoc.
  destruct (array_pop xs) as [[x ys]|] eqn:E; subst xs.
  - right. exists ys, x. split; [reflexivity|].
    run. rewrite Hxs, E. cbn. rewrite Hxs. reflexivity.
  - left. split; [reflexivity|]. run. rewrite Hxs. reflexivity.
Qed.

(** C9: pop never throws: on a container that is not empty it removes the
    last element and returns it, on an empty one it returns [undefined] and
    the container stays empty. *)
Theorem pop_never_fails (σ : store) (xs : list value) :
  σ !! TypeGuard.data this = Some xs ->
  (exists v σ', TypeGuard.pop this σ = Some (Ok v, σ'))
  /\ (xs = [] -> TypeGuard.pop this σ = Some (Ok VUndefined, σ))
  /\ (forall ys x,
        xs = ys ++ [x] ->
        TypeGuard.pop this σ = Some (Ok x, <[TypeGuard.data this := ys]> σ)).
Proof.
  intros Hxs.
  destruct (pop_cases σ xs Hxs) as [[Hnil Hpop]|(ys & x & Hsnoc & Hpop)];
    rewrite Hpop.
  - split; [eauto|]. split; [reflexivity|].
    intros ys x ->. now destruct ys.
  - split; [eauto|]. split.
    + intros ->. now destruct ys.
    + intros ys' x' Heq. rewrite Hsnoc in Heq.
      apply app_inj_tail in Heq as [-> ->]. reflexivity.
Qed.

End Container.

Lemma three_store_data :
  three_store !! TypeGuard.data three = Some [VNum 10; VNum 20; VNum 30].
Proof. reflexivity. Qed.

Lemma typeof_string_not_number : typeof (VStr "x") <> "number".
Proof. discriminate. Qed.

Lemma push_mismatch_unchanged_witness :
  typeof (VStr "x") <> "number"
  /\ TypeGuard.push three (VStr "x") three_store
     = Some (Throw (TypeError "Expected type number, but received string"),
             three_store).
Proof.
  split; [exact typeof_string_not_number|].
  apply (push_mismatch_unchanged three (VStr "x") three_store
           typeof_string_not_number).
Defined.


Lemma pop_never_fails_witness :
  three_store !! TypeGuard.data three = Some [VNum 10; VNum 20; VNum 30]
  /\ TypeGuard.pop three three_store
     = Some (Ok (VNum 30),
             <[TypeGuard.data three := [VNum 10; VNum 20]]> three_store).
Proof.
  split; [exact three_store_data|].
  destruct (pop_never_fails three three_store [VNum 10; VNum 20; VNum 30]
              three_store_data) as (_ & _ & Hlast).
  apply (Hlast [VNum 10; VNum 20] (VNum 30)). reflexivity.
Defined.

(** ** The expected type *)

Lemma constructor_data (initialValues : argument) (σ σ' : store)
  (c : TypeGuard.t) :
  TypeGuard.constructor initialValues σ = Some (Ok c, σ') ->
  is_Some (σ' !! TypeGuard.data c).
Proof.
  destruct initialValues as [a|v].
  - run. destruct (σ !! a) as [xs|] eqn:Ha; [|discriminate].
    intros [= <- <-]. cbn. eauto.
  - destruct v; run; try discriminate; intros [= <- <-]; cbn;
      rewrite lookup_insert_eq; eauto.
Qed.

(** C4, as the claim has it, fails: a container built from ["a"] does not
    take the string "b". *)
Lemma first_element_type_not_inferred :
  (c ← TypeGuard.constructor (ByValue (VArr [VStr "a"]));
   TypeGuard.push c (VStr "b")) ∅
  = Some (Throw (TypeError "Expected type number, but received string"),
          {[ 1%positive := [VStr "a"] ]}).
Proof. vm_compute. reflexivity. Qed.

(** C4, amended: whatever array a container is built from, its expected
    element type is number: a push succeeds when the [typeof] of the element
    is number, and throws the type-mismatch error when it is not. *)
Theorem expected_type_is_number (initialValues : argument) (σ σ' : store)
  (c : TypeGuard.t) (element : value) :
  TypeGuard.constructor initialValues σ = Some (Ok c, σ') ->
  (typeof element = "number" ->
   exists xs, σ' !! TypeGuard.data c = Some xs
     /\ TypeGuard.push c element σ'
        = Some (Ok c, <[TypeGuard.data c := xs ++ [element]]> σ'))
  /\ (typeof element <> "number" ->
      TypeGuard.push c element σ'
      = Some (Throw (TypeError ("Expected type number, but received "
                                +:+ typeof element)), σ')).
Proof.
  intros Hnew. split.
  - intros Hnum. destruct (constructor_data _ _ _ _ Hnew) as [xs Hxs].
    exists xs. split; [exact Hxs|]. now apply push_number.
  - intros Hne. now apply push_mismatch.
Qed.

Lemma expected_type_is_number_witness :
  TypeGuard.constructor (ByRef 1%positive) three_store
  = Some (Ok three, three_store)
  /\ TypeGuard.push three (VStr "x") three_store
     = Some (Throw (TypeError "Expected type number, but received string"),
             three_store).
Proof.
  split; [reflexivity|].
  apply (expected_type_is_number (ByRef 1%positive) three_store three_store
           three (VStr "x") eq_refl).
  exact typeof_string_not_number.
Defined.

(** ** Copies and aliases *)

Lemma fresh_not_held (σ : store) (a : loc) (xs : list value) :
  σ !! a = Some xs -> fresh (dom σ) <> a.
Proof.
  intros Ha Heq. apply (is_fresh (dom σ)). rewrite Heq.
  apply elem_of_dom. eauto.
Qed.

Lemma clone_copies (c : TypeGuard.t) (σ : store) (xs : list value) :
  σ !! TypeGuard.data c = Some xs ->
  TypeGuard.clone c σ
  = Some (Ok {| TypeGuard.data := fresh (dom σ) |},
          <[fresh (dom σ) := xs]> σ).
Proof. intros Hxs. run. rewrite Hxs. reflexivity. Qed.

Lemma toString_brackets (c : TypeGuard.t) (σ : store) (xs : list value) :
  σ !! TypeGuard.data c = Some xs ->
  TypeGuard.toString c σ = Some (brackets xs, σ).
Proof.
  intros Hxs. run. rewrite Hxs. unfold brackets.
  destruct (join ", " xs); reflexivity.
Qed.

Lemma length_reads (c : TypeGuard.t) (σ : store) (xs : list value) :
  σ !! TypeGuard.data c = Some xs ->
  TypeGuard.length c σ = Some (Ok (Z.of_nat (length xs)), σ).
Proof. intros Hxs. run. rewrite Hxs. reflexivity. Qed.

Lemma at_reads (c : TypeGuard.t) (index : Z) (σ : store) (xs : list value) :
  σ !! TypeGuard.data c = Some xs ->
  TypeGuard.at_ c index σ = Some (Ok (get xs index), σ).
Proof. intros Hxs. run. rewrite Hxs. reflexivity. Qed.

(** A mutating call writes the array of its container and no other. *)
Lemma mutate_store (c : TypeGuard.t) (m : mutation) (σ : store)
  (xs : list value) :
  σ !! TypeGuard.data c = Some xs ->
  exists zs, mutate c m σ = Some (Ok tt, <[TypeGuard.data c := zs]> σ).
Proof.
  intros Hxs.
  assert (σ = <[TypeGuard.data c := xs]> σ) as Hsame
    by (symmetry; now apply insert_id).
  destruct m as [element| |index element|index]; unfold mutate, attempt.
  - destruct (decide (typeof element = "number")) as [Hnum|Hne].
    + rewrite (push_number c element σ xs Hxs Hnum). eauto.
    + rewrite (push_mismatch c element σ Hne). exists xs. now rewrite <- Hsame.
  - destruct (pop_cases c σ xs Hxs) as [[-> ->]|(ys & x & -> & ->)].
    + exists []. now rewrite <- Hsame.
    + eauto.
  - destruct (insertAt_attempt c index element σ xs Hxs)
      as [[err ->]|[_ ->]]; [exists xs; now rewrite <- Hsame | eauto].
  - destruct (removeAt_attempt c index σ xs Hxs) as [[err ->]|[v ->]];
      [exists xs; now rewrite <- Hsame | eauto].
Qed.

Lemma mutate_all_store (c : TypeGuard.t) (ms : list mutation) :
  forall (σ : store) (xs : list value),
    σ !! TypeGuard.data c = Some xs ->
    exists zs,
      mutate_all c ms σ = Some (Ok tt, <[TypeGuard.data c := zs]> σ).
Proof.
  induction ms as [|m ms IH]; intros σ xs Hxs.
  - exists xs. cbn. unfold mret, M_ret. now rewrite insert_id.
  - destruct (mutate_store c m σ xs Hxs) as [ys Hm].
    destruct (IH (<[TypeGuard.data c := ys]> σ) ys) as [zs Hms];
      [apply lookup_insert_eq|].
    exists zs. cbn. unfold mbind, M_bind. rewrite Hm, Hms.
    now rewrite insert_insert_eq.
Qed.

(** C8: clone returns a container on an array of its own that prints as the
    original does, and no run of push, pop, insertAt and removeAt on the
    clone changes the length or an element of the original. *)
Theorem clone_independent (c : TypeGuard.t) (σ : store) (xs : list value) :
  σ !! TypeGuard.data c = Some xs ->
  exists copy σ',
    TypeGuard.clone c σ = Some (Ok copy, σ')
    /\ TypeGuard.data copy <> TypeGuard.data c
    /\ fst <$> TypeGuard.toString copy σ' = fst <$> TypeGuard.toString c σ
    /\ forall ms, exists σ'',
         mutate_all copy ms σ' = Some (Ok tt, σ'')
         /\ fst <$> TypeGuard.length c σ'' = fst <$> TypeGuard.length c σ
         /\ forall index,
              fst <$> TypeGuard.at_ c index σ''
              = fst <$> TypeGuard.at_ c index σ.
Proof.
  intros Hxs. pose proof (fresh_not_held σ _ xs Hxs) as Hfresh.
  set (copy := {| TypeGuard.data := fresh (dom σ) |}).
  exists copy, (<[fresh (dom σ) := xs]> σ).
  assert (<[fresh (dom σ) := xs]> σ !! TypeGuard.data copy = Some xs)
    as Hcopy by apply lookup_insert_eq.
  split; [now apply clone_copies|].
  split; [exact Hfresh|].
  split.
  - rewrite (toString_brackets copy _ xs Hcopy).
    rewrite (toString_brackets c σ xs Hxs). reflexivity.
  - intros ms.
    destruct (mutate_all_store copy ms _ xs Hcopy) as [zs Hms].
    eexists. split; [exact Hms|].
    assert (<[TypeGuard.data copy := zs]> (<[fresh (dom σ) := xs]> σ)
              !! TypeGuard.data c = Some xs) as Hkept.
    { rewrite !lookup_insert_ne by exact Hfresh. exact Hxs. }
    split.
    + rewrite (length_reads c _ xs Hkept), (length_reads c σ xs Hxs).
      reflexivity.
    + intros index.
      rewrite (at_reads c index _ xs Hkept), (at_reads c index σ xs Hxs).
      reflexivity.
Qed.

Lemma clone_independent_witness :
  three_store !! TypeGuard.data three = Some [VNum 10; VNum 20; VNum 30]
  /\ exists copy σ',
       TypeGuard.clone three three_store = Some (Ok copy, σ')
       /\ TypeGuard.data copy <> TypeGuard.data three.
Proof.
  split; [exact three_store_data|].
  destruct (clone_independent three three_store
              [VNum 10; VNum 20; VNum 30] three_store_data)
    as (copy & σ' & Hclone & Hne & _).
  exists copy, σ'. split; [exact Hclone | exact Hne].
Defined.

(** C10: the constructor keeps the array it is given, without a copy: a
    call of push, pop, insertAt or removeAt on the container shows in the
    caller's array, and a change of the caller's array shows in at, length
    and toString of the container; the array of a clone is another one,
    which a change of the caller's array leaves as it was. *)
Theorem constructor_keeps_reference (a : loc) (σ : store) (xs : list value) :
  σ !! a = Some xs ->
  let c := {| TypeGuard.data := a |} in
  TypeGuard.constructor (ByRef a) σ = Some (Ok c, σ)
  /\ (forall element,
        typeof element = "number" ->
        exists σ', TypeGuard.push c element σ = Some (Ok c, σ')
          /\ σ' !! a = Some (xs ++ [element]))
  /\ (forall ys x,
        xs = ys ++ [x] ->
        exists σ', TypeGuard.pop c σ = Some (Ok x, σ') /\ σ' !! a = Some ys)
  /\ (forall index element,
        (0 <= index <= Z.of_nat (length xs))%Z ->
        typeof element = "number" ->
        exists σ',
          TypeGuard.insertAt c (Int index) element σ = Some (Ok c, σ')
          /\ σ' !! a
             = Some (take (Z.to_nat index) xs
                       ++ element :: drop (Z.to_nat index) xs))
  /\ (forall index,
        (0 <= index < Z.of_nat (length xs))%Z ->
        exists σ',
          TypeGuard.removeAt c (Int index) σ
          = Some (Ok (get xs index), σ')
          /\ σ' !! a
             = Some (take (Z.to_nat index) xs
                       ++ drop (S (Z.to_nat index)) xs))
  /\ (forall ys,
        let σ' := <[a := ys]> σ in
        TypeGuard.length c σ' = Some (Ok (Z.of_nat (length ys)), σ')
        /\ (forall index, TypeGuard.at_ c index σ' = Some (Ok (get ys index), σ'))
        /\ TypeGuard.toString c σ' = Some (brackets ys, σ'))
  /\ (exists copy σ',
        TypeGuard.clone c σ = Some (Ok copy, σ')
        /\ TypeGuard.data copy <> a
        /\ forall ys,
             let σ'' := <[a := ys]> σ' in
             TypeGuard.length copy σ'' = Some (Ok (Z.of_nat (length xs)), σ'')
             /\ (forall index,
                   TypeGuard.at_ copy index σ'' = Some (Ok (get xs index), σ''))
             /\ TypeGuard.toString copy σ'' = Some (brackets xs, σ'')).
Proof.
  intros Hxs c.
  assert (σ !! TypeGuard.data c = Some xs) as Hc by exact Hxs.
  split; [|split; [|split; [|split; [|split; [|split]]]]].
  - run. rewrite Hxs. reflexivity.
  - intros element Hnum. eexists. split; [exact (push_number c element σ xs Hc Hnum)|].
    apply lookup_insert_eq.
  - intros ys x Heq.
    destruct (pop_cases c σ xs Hc) as [[-> _]|(ys' & x' & Hsnoc & Hpop)].
    + now destruct ys.
    + rewrite Hsnoc in Heq. apply app_inj_tail in Heq as [-> ->].
      eexists. split; [exact Hpop|]. apply lookup_insert_eq.
  - intros index element Hin Hnum.
    eexists.
    split; [exact (insertAt_in_range c index element σ xs Hc Hin Hnum)|].
    apply lookup_insert_eq.
  - intros index Hin.
    eexists. split; [exact (removeAt_in_range c index σ xs Hc Hin)|].
    apply lookup_insert_eq.
  - intros ys σ'.
    assert (σ' !! TypeGuard.data c = Some ys) as Hys by apply lookup_insert_eq.
    split; [now apply length_reads|].
    split; [intros index; now apply at_reads | now apply toString_brackets].
  - pose proof (fresh_not_held σ a xs Hxs) as Hfresh.
    exists {| TypeGuard.data := fresh (dom σ) |}, (<[fresh (dom σ) := xs]> σ).
    split; [now apply clone_copies|].
    split; [exact Hfresh|].
    intros ys σ''.
    assert (σ'' !! fresh (dom σ) = Some xs) as Hcopy.
    { unfold σ''. rewrite lookup_insert_ne by congruence.
      apply lookup_insert_eq. }
    split; [now apply length_reads|].
    split; [intros index; now apply at_reads | now apply toString_brackets].
Qed.

Lemma constructor_keeps_reference_witness :
  three_store !! 1%positive = Some [VNum 10; VNum 20; VNum 30]
  /\ TypeGuard.constructor (ByRef 1%positive) three_store
     = Some (Ok three, three_store).
Proof.
  split; [exact three_store_data|].
  destruct (constructor_keeps_reference 1%positive three_store
              [VNum 10; VNum 20; VNum 30] three_store_data) as [Hnew _].
  exact Hnew.
Defined.

(** ** What the traversals return, on every value *)

Section Orders.

Variable typeEnum : gmap string predicate.

Lemma flatten_props (props : list (string * value)) :
  concat (map (fun kv => match kv with (_, x) => flatten x end) props)
  = leaves props.*2.
Proof.
  unfold leaves. induction props as [|[k x] props IH]; simpl;
    [reflexivity|]. now rewrite IH.
Qed.

(** [flatten] follows the three branches of the loop body. *)
Lemma flatten_step (item : value) :
  flatten item
  = if Array_isArray item then leaves (spread item)
    else if String.eqb (typeof item) "object" && not_null item
         then leaves (Object_values item)
         else [item].
Proof.
  destruct item; try reflexivity. simpl. apply flatten_props.
Qed.

Lemma leaves_app (l k : list value) : leaves (l ++ k) = leaves l ++ leaves k.
Proof. unfold leaves. now rewrite map_app, concat_app. Qed.

Lemma leaves_cons (x : value) (l : list value) :
  leaves (x :: l) = flatten x ++ leaves l.
Proof. reflexivity. Qed.

Lemma leaves_snoc (l : list value) (x : value) :
  leaves (l ++ [x]) = leaves l ++ flatten x.
Proof. rewrite leaves_app. unfold leaves. simpl. now rewrite app_nil_r. Qed.

Lemma accepted_true (item : value) :
  classify typeEnum item = Ok true -> accepted typeEnum item = true.
Proof. unfold accepted. now intros ->. Qed.

Lemma accepted_false (item : value) :
  classify typeEnum item = Ok false -> accepted typeEnum item = false.
Proof. unfold accepted. now intros ->. Qed.

(** The depth-first loop returns the leaves of its stack from the right. *)
Lemma dfs_loop_returns (fuel : nat) :
  forall stack result r,
    dfs_loop typeEnum fuel stack result = Some (Ok r) ->
    r = result ++ List.filter (accepted typeEnum) (reverse (leaves stack)).
Proof.
  induction fuel as [|fuel IH]; intros stack result r; simpl; [discriminate|].
  pose proof (array_pop_snoc stack) as Hpop.
  destruct (array_pop stack) as [[item rest]|]; subst stack.
  2:{ intros [= <-]. cbn. now rewrite app_nil_r. }
  rewrite leaves_snoc, (flatten_step item).
  destruct (Array_isArray item).
  { intros H. apply IH in H. now rewrite leaves_app in H. }
  destruct (String.eqb (typeof item) "object" && not_null item).
  { intros H. apply IH in H. now rewrite leaves_app in H. }
  rewrite reverse_snoc. simpl.
  destruct (classify typeEnum item) as [[|]|e] eqn:E; [| |discriminate].
  - rewrite (accepted_true item E). intros H. apply IH in H.
    now rewrite <- app_assoc in H.
  - rewrite (accepted_false item E). apply IH.
Qed.

(** The breadth-first loop returns the accepted leaves of its queue, each
    as many times as it occurs. *)
Lemma bfs_loop_returns (fuel : nat) :
  forall queue result r,
    bfs_loop typeEnum fuel queue result = Some (Ok r) ->
    r ≡ₚ result ++ List.filter (accepted typeEnum) (leaves queue).
Proof.
  induction fuel as [|fuel IH]; intros queue result r; simpl; [discriminate|].
  destruct queue as [|item queue]; simpl.
  { intros [= <-]. cbn. now rewrite app_nil_r. }
  rewrite leaves_cons, (flatten_step item), List.filter_app.
  destruct (Array_isArray item).
  { intros H. apply IH in H. rewrite H, leaves_app, List.filter_app.
    apply Permutation_app_head, Permutation_app_comm. }
  destruct (String.eqb (typeof item) "object" && not_null item).
  { intros H. apply IH in H. rewrite H, leaves_app, List.filter_app.
    apply Permutation_app_head, Permutation_app_comm. }
  simpl.
  destruct (classify typeEnum item) as [[|]|e] eqn:E; [| |discriminate].
  - rewrite (accepted_true item E). intros H. apply IH in H.
    now rewrite <- app_assoc in H.
  - rewrite (accepted_false item E). apply IH.
Qed.

(** An error of a loop is the error of the chain of testers at a leaf. *)
Lemma bfs_loop_throws (fuel : nat) :
  forall queue result e,
    bfs_loop typeEnum fuel queue result = Some (Throw e) ->
    exists x, x ∈ leaves queue /\ classify typeEnum x = Throw e.
Proof.
  induction fuel as [|fuel IH]; intros queue result e; simpl; [discriminate|].
  destruct queue as [|item queue]; simpl; [discriminate|].
  rewrite leaves_cons, (flatten_step item).
  destruct (Array_isArray item).
  { intros H. apply IH in H as (x & Hx & Hc). exists x. split; [|exact Hc].
    rewrite leaves_app in Hx. rewrite elem_of_app in *. tauto. }
  destruct (String.eqb (typeof item) "object" && not_null item).
  { intros H. apply IH in H as (x & Hx & Hc). exists x. split; [|exact Hc].
    rewrite leaves_app in Hx. rewrite elem_of_app in *. tauto. }
  destruct (classify typeEnum item) as [[|]|e'] eqn:E.
  - intros H. apply IH in H as (x & Hx & Hc). exists x.
    rewrite elem_of_app. tauto.
  - intros H. apply IH in H as (x & Hx & Hc). exists x.
    rewrite elem_of_app. tauto.
  - intros [= <-]. exists item.
    rewrite elem_of_app, list_elem_of_singleton. tauto.
Qed.

Lemma dfs_loop_throws (fuel : nat) :
  forall stack result e,
    dfs_loop typeEnum fuel stack result = Some (Throw e) ->
    exists x, x ∈ leaves stack /\ classify typeEnum x = Throw e.
Proof.
  induction fuel as [|fuel IH]; intros stack result e; simpl; [discriminate|].
  pose proof (array_pop_snoc stack) as Hpop.
  destruct (array_pop stack) as [[item rest]|]; subst stack; [|discriminate].
  rewrite leaves_snoc, (flatten_step item).
  destruct (Array_isArray item).
  { intros H. apply IH in H as (x & Hx & Hc). exists x. split; [|exact Hc].
    rewrite leaves_app in Hx. rewrite elem_of_app in *. tauto. }
  destruct (String.eqb (typeof item) "object" && not_null item).
  { intros H. apply IH in H as (x & Hx & Hc). exists x. split; [|exact Hc].
    rewrite leaves_app in Hx. rewrite elem_of_app in *. tauto. }
  destruct (classify typeEnum item) as [[|]|e'] eqn:E.
  - intros H. apply IH in H as (x & Hx & Hc). exists x.
    rewrite elem_of_app. tauto.
  - intros H. apply IH in H as (x & Hx & Hc). exists x.
    rewrite elem_of_app. tauto.
  - intros [= <-]. exists item.
    rewrite elem_of_app, list_elem_of_singleton. tauto.
Qed.

Lemma leaves_singleton (obj : value) : leaves [obj] = flatten obj.
Proof. unfold leaves. simpl. apply app_nil_r. Qed.

End Orders.

Section Levels.

Variable typeEnum : gmap string predicate.

Lemma weight_expand (item : value) :
  weight item = S (list_sum (map weight (expand item))).
Proof.
  destruct item; try reflexivity. simpl. now rewrite weight_props.
Qed.

Lemma weight_children (q : list value) :
  list_sum (map weight q) = length q + list_sum (map weight (children q)).
Proof.
  unfold children. induction q as [|item q IH]; simpl; [reflexivity|].
  rewrite map_app, list_sum_app, (weight_expand item), IH. lia.
Qed.

Lemma scalar_expand (item : value) : scalar item = true -> expand item = [].
Proof.
  unfold scalar, expand. destruct (Array_isArray item); [discriminate|].
  destruct (String.eqb (typeof item) "object" && not_null item);
    [discriminate | reflexivity].
Qed.

Lemma flatten_expand (item : value) :
  flatten item = if scalar item then [item] else leaves (expand item).
Proof.
  rewrite flatten_step. unfold scalar, expand.
  destruct (Array_isArray item); [reflexivity|].
  destruct (String.eqb (typeof item) "object" && not_null item); reflexivity.
Qed.

Lemma elem_of_leaves (q : list value) (x : value) :
  x ∈ leaves q <-> x ∈ scalars q \/ x ∈ leaves (children q).
Proof.
  unfold scalars, children. induction q as [|item q IH]; simpl.
  { unfold leaves. simpl. rewrite elem_of_nil. tauto. }
  rewrite leaves_cons, leaves_app, !elem_of_app, IH, flatten_expand.
  destruct (scalar item) eqn:E.
  - rewrite (scalar_expand item E), list_elem_of_singleton, elem_of_cons.
    change (leaves []) with (@nil value). rewrite elem_of_nil. tauto.
  - tauto.
Qed.

Lemma bfs_loop_composite (fuel : nat) (item : value)
  (queue result : list value) :
  scalar item = false ->
  bfs_loop typeEnum (S fuel) (item :: queue) result
  = bfs_loop typeEnum fuel (queue ++ expand item) result.
Proof.
  unfold scalar, expand. simpl. destruct (Array_isArray item); [reflexivity|].
  destruct (String.eqb (typeof item) "object" && not_null item);
    [reflexivity | discriminate].
Qed.

Lemma bfs_loop_scalar (fuel : nat) (item : value)
  (queue result : list value) :
  scalar item = true ->
  bfs_loop typeEnum (S fuel) (item :: queue) result
  = match classify typeEnum item with
    | Throw e => Some (Throw e)
    | Ok true => bfs_loop typeEnum fuel queue (result ++ [item])
    | Ok false => bfs_loop typeEnum fuel queue result
    end.
Proof.
  unfold scalar. simpl. destruct (Array_isArray item); [discriminate|].
  destruct (String.eqb (typeof item) "object" && not_null item);
    [discriminate | reflexivity].
Qed.

(** The loop works off one level of its queue and is left with the next. *)
Lemma bfs_loop_level (q : list value) :
  forall later result fuel,
    (forall x, x ∈ scalars q -> exists b, classify typeEnum x = Ok b) ->
    bfs_loop typeEnum (length q + fuel) (q ++ later) result
    = bfs_loop typeEnum fuel (later ++ children q)
        (result ++ List.filter (accepted typeEnum) (scalars q)).
Proof.
  unfold scalars, children.
  induction q as [|item q IH]; intros later result fuel Hret.
  { simpl. now rewrite !app_nil_r. }
  cbn [length Nat.add app map concat List.filter] in *.
  destruct (scalar item) eqn:Hscalar.
  - rewrite (bfs_loop_scalar _ _ _ _ Hscalar), (scalar_expand item Hscalar).
    assert (forall x, x ∈ List.filter scalar q ->
              exists b, classify typeEnum x = Ok b) as Hret'.
    { intros x Hx. apply Hret. now apply list_elem_of_further. }
    destruct (Hret item) as [b Hb]; [apply list_elem_of_here|].
    rewrite Hb. cbn [List.filter app]. destruct b.
    + rewrite (accepted_true typeEnum item Hb), IH by exact Hret'.
      now rewrite <- app_assoc.
    + rewrite (accepted_false typeEnum item Hb). now apply IH.
  - rewrite (bfs_loop_composite _ _ _ _ Hscalar).
    rewrite <- app_assoc, IH, <- app_assoc; [reflexivity | exact Hret].
Qed.

Lemma bfs_levels_nil (n : nat) : bfs_levels typeEnum n [] = [].
Proof. induction n as [|n IH]; [reflexivity|]. simpl. exact IH. Qed.

Lemma bfs_loop_levels (n : nat) :
  forall q result fuel,
    list_sum (map weight q) <= n ->
    (forall x, x ∈ leaves q -> exists b, classify typeEnum x = Ok b) ->
    bfs_loop typeEnum (list_sum (map weight q) + S fuel) q result
    = Some (Ok (result ++ bfs_levels typeEnum n q)).
Proof.
  induction n as [|n IH]; intros q result fuel Hn Hret.
  { destruct q as [|item q]; [simpl; now rewrite app_nil_r|].
    simpl in Hn. pose proof (weight_pos item). lia. }
  rewrite (weight_children q), <- Nat.add_assoc.
  pose proof (bfs_loop_level q [] result
                (list_sum (map weight (children q)) + S fuel)) as Hlevel.
  rewrite app_nil_r in Hlevel. rewrite Hlevel.
  2:{ intros x Hx. apply Hret, elem_of_leaves. now left. }
  simpl. rewrite IH, <- app_assoc; [reflexivity| |].
  - pose proof (weight_children q) as Hw.
    destruct q as [|item q]; [simpl; lia|]. simpl in *. lia.
  - intros x Hx. apply Hret, elem_of_leaves. now right.
Qed.

Lemma leaves_at_O (q : list value) :
  concat (map (leaves_at 0) q) = scalars q.
Proof.
  unfold scalars. induction q as [|item q IH]; simpl; [reflexivity|].
  rewrite IH. now destruct item.
Qed.

Lemma leaves_at_props (d : nat) (props : list (string * value)) :
  concat (map (fun kv => match kv with (_, x) => leaves_at d x end) props)
  = concat (map (leaves_at d) props.*2).
Proof.
  induction props as [|[k x] props IH]; simpl; [reflexivity|]. now rewrite IH.
Qed.

Lemma leaves_at_S (d : nat) (q : list value) :
  concat (map (leaves_at (S d)) q) = concat (map (leaves_at d) (children q)).
Proof.
  unfold children. induction q as [|item q IH]; simpl; [reflexivity|].
  rewrite map_app, concat_app, IH. f_equal.
  destruct item; try reflexivity. simpl. apply leaves_at_props.
Qed.

Lemma bfs_levels_leaves_at (n : nat) :
  forall q,
    bfs_levels typeEnum n q
    = List.filter (accepted typeEnum)
        (concat (map (fun d => concat (map (leaves_at d) q)) (seq 0 n))).
Proof.
  induction n as [|n IH]; intros q; [reflexivity|].
  cbn [bfs_levels seq map concat].
  rewrite List.filter_app, leaves_at_O, IH. f_equal. f_equal. f_equal.
  rewrite <- seq_shift, map_map. apply map_ext. intros d.
  symmetry. apply leaves_at_S.
Qed.

End Levels.

Lemma typeof_testers_return (x : value) :
  exists b, classify typeof_testers x = Ok b.
Proof. destruct x; eexists; reflexivity. Qed.

Lemma typeof_testers_return_on (obj : value) :
  testers_return typeof_testers obj.
Proof. intros x _. apply typeof_testers_return. Qed.

Lemma filter_Permutation (f : value -> bool) (l k : list value) :
  l ≡ₚ k -> List.filter f l ≡ₚ List.filter f k.
Proof.
  induction 1 as [|x l k _ IH|x y l|l k m _ IH1 _ IH2]; simpl.
  - reflexivity.
  - destruct (f x); [now constructor | exact IH].
  - destruct (f x), (f y); try reflexivity. apply perm_swap.
  - now transitivity (List.filter f k).
Qed.

Section Results.

Variable typeEnum : gmap string predicate.

(** X1: when no tester throws on a leaf, the depth-first traversal returns
    the accepted leaves in the reverse of their left-to-right order, [null]
    counting as a leaf and a regular expression object as an empty
    composite. *)
Theorem dfsTraversal_order (obj : value) :
  testers_return typeEnum obj ->
  dfsTraversal obj typeEnum
  = Some (Ok (List.filter (accepted typeEnum) (reverse (flatten obj)))).
Proof.
  intros Hret. destruct (dfsTraversal_total typeEnum obj) as [[r|e] Hrun];
    rewrite Hrun.
  - apply dfs_loop_returns in Hrun. rewrite leaves_singleton in Hrun.
    now subst r.
  - apply dfs_loop_throws in Hrun as (x & Hx & Hthrow).
    rewrite leaves_singleton in Hx. destruct (Hret x Hx) as [b Hb]. congruence.
Qed.

(** X2: when no tester throws on a leaf, the breadth-first traversal
    returns the accepted leaves level by level, each level from left to
    right; levels beyond the number of nodes hold nothing. *)
Theorem bfsTraversal_order (obj : value) (n : nat) :
  testers_return typeEnum obj ->
  weight obj <= n ->
  bfsTraversal obj typeEnum
  = Some (Ok (List.filter (accepted typeEnum) (level_order n obj))).
Proof.
  intros Hret Hn. unfold bfsTraversal.
  replace (S (weight obj)) with (list_sum (map weight [obj]) + 1)
    by (simpl; lia).
  rewrite (bfs_loop_levels typeEnum n).
  - rewrite bfs_levels_leaves_at. simpl. unfold level_order.
    do 4 f_equal. apply map_ext. intros d. simpl. apply app_nil_r.
  - simpl. lia.
  - intros x Hx. rewrite leaves_singleton in Hx. now apply Hret.
Qed.

(** X3: when no tester throws on a leaf, both traversals return the same
    leaves the same number of times, one result a reordering of the other:
    the accepted leaves, no more and no fewer. *)
Theorem traversals_same_leaves (obj : value) :
  testers_return typeEnum obj ->
  exists rb rd,
    bfsTraversal obj typeEnum = Some (Ok rb)
    /\ dfsTraversal obj typeEnum = Some (Ok rd)
    /\ rb ≡ₚ rd
    /\ rb ≡ₚ List.filter (accepted typeEnum) (flatten obj)
    /\ length rb = length (List.filter (accepted typeEnum) (flatten obj)).
Proof.
  intros Hret.
  destruct (bfsTraversal_total typeEnum obj) as [[rb|e] Hb].
  2:{ apply bfs_loop_throws in Hb as (x & Hx & Hthrow).
      rewrite leaves_singleton in Hx. destruct (Hret x Hx) as [b Hb].
      congruence. }
  destruct (dfsTraversal_total typeEnum obj) as [[rd|e] Hd].
  2:{ apply dfs_loop_throws in Hd as (x & Hx & Hthrow).
      rewrite leaves_singleton in Hx. destruct (Hret x Hx) as [b Hb'].
      congruence. }
  exists rb, rd. split; [exact Hb|]. split; [exact Hd|].
  apply bfs_loop_returns in Hb. apply dfs_loop_returns in Hd.
  rewrite leaves_singleton in Hb, Hd. simpl in Hb, Hd. subst rd.
  assert (List.filter (accepted typeEnum) (reverse (flatten obj))
          ≡ₚ List.filter (accepted typeEnum) (flatten obj)) as Hrev.
  { apply filter_Permutation, reverse_Permutation. }
  split; [now rewrite Hb, Hrev|]. split; [exact Hb|].
  now rewrite Hb.
Qed.

Lemma bfs_loop_scalars (fuel : nat) :
  forall queue result r,
    Forall (fun x => scalar x = true) result ->
    bfs_loop typeEnum fuel queue result = Some (Ok r) ->
    Forall (fun x => scalar x = true) r.
Proof.
  induction fuel as [|fuel IH]; intros queue result r Hres; [discriminate|].
  destruct queue as [|item queue]; [simpl; now intros [= <-]|].
  destruct (scalar item) eqn:Hscalar.
  - rewrite (bfs_loop_scalar _ _ _ _ _ Hscalar).
    destruct (classify typeEnum item) as [[|]|e]; [| now apply IH | discriminate].
    apply IH. apply Forall_app. split; [exact Hres | now constructor].
  - rewrite (bfs_loop_composite _ _ _ _ _ Hscalar). now apply IH.
Qed.

Lemma dfs_loop_scalars (fuel : nat) :
  forall stack result r,
    Forall (fun x => scalar x = true) result ->
    dfs_loop typeEnum fuel stack result = Some (Ok r) ->
    Forall (fun x => scalar x = true) r.
Proof.
  induction fuel as [|fuel IH]; intros stack result r Hres; simpl;
    [discriminate|].
  destruct (array_pop stack) as [[item rest]|]; [|now intros [= <-]].
  destruct (Array_isArray item) eqn:Harr; [now apply IH|].
  destruct (String.eqb (typeof item) "object" && not_null item) eqn:Hobj;
    [now apply IH|].
  destruct (classify typeEnum item) as [[|]|e]; [| now apply IH | discriminate].
  apply IH. apply Forall_app. split; [exact Hres|]. constructor; [|constructor].
  unfold scalar. now rewrite Harr, Hobj.
Qed.

(** X5: a result never holds an array, an object or a regular expression
    object, whatever the testers accept: a regular expression object is
    walked as an object without properties and never reaches isRegExp. *)
Theorem results_hold_scalars (obj : value) (r : list value) :
  bfsTraversal obj typeEnum = Some (Ok r)
  \/ dfsTraversal obj typeEnum = Some (Ok r) ->
  forall x, x ∈ r ->
    match x with
    | VArr _ | VObj _ | VRegExp _ _ => False
    | _ => True
    end.
Proof.
  intros Hrun x Hx.
  assert (Forall (fun x => scalar x = true) r) as Hall.
  { destruct Hrun as [Hrun|Hrun].
    - eapply bfs_loop_scalars; [|exact Hrun]. constructor.
    - eapply dfs_loop_scalars; [|exact Hrun]. constructor. }
  rewrite Forall_forall in Hall. specialize (Hall x Hx).
  destruct x; try exact I; discriminate.
Qed.

End Results.

Lemma dfsTraversal_order_witness :
  testers_return typeof_testers nested_root
  /\ dfsTraversal nested_root typeof_testers
     = Some (Ok (List.filter (accepted typeof_testers)
                   (reverse (flatten nested_root)))).
Proof.
  split; [apply typeof_testers_return_on|].
  apply (dfsTraversal_order typeof_testers nested_root).
  apply typeof_testers_return_on.
Defined.

Lemma nested_root_weight : weight nested_root <= 7.
Proof. simpl. lia. Qed.

Lemma bfsTraversal_order_witness :
  testers_return typeof_testers nested_root
  /\ weight nested_root <= 7
  /\ bfsTraversal nested_root typeof_testers
     = Some (Ok (List.filter (accepted typeof_testers)
                   (level_order 7 nested_root))).
Proof.
  split; [apply typeof_testers_return_on|].
  split; [exact nested_root_weight|].
  apply (bfsTraversal_order typeof_testers nested_root 7).
  - apply typeof_testers_return_on.
  - exact nested_root_weight.
Defined.

Lemma traversals_same_leaves_witness :
  testers_return typeof_testers mixed_root
  /\ exists rb rd,
       bfsTraversal mixed_root typeof_testers = Some (Ok rb)
       /\ dfsTraversal mixed_root typeof_testers = Some (Ok rd)
       /\ rb ≡ₚ rd.
Proof.
  split; [apply typeof_testers_return_on|].
  destruct (traversals_same_leaves typeof_testers mixed_root
              (typeof_testers_return_on mixed_root))
    as (rb & rd & Hb & Hd & Hperm & _).
  exists rb, rd. split; [exact Hb|]. split; [exact Hd | exact Hperm].
Defined.

Lemma bfs_nested_root_run :
  bfsTraversal nested_root typeof_testers
  = Some (Ok [VNum 1; VNum 2; VNum 3; VNum 4]).
Proof. reflexivity. Qed.

Lemma results_hold_scalars_witness :
  (bfsTraversal nested_root typeof_testers
   = Some (Ok [VNum 1; VNum 2; VNum 3; VNum 4])
   \/ dfsTraversal nested_root typeof_testers
      = Some (Ok [VNum 1; VNum 2; VNum 3; VNum 4]))
  /\ (VNum 3 ∈ [VNum 1; VNum 2; VNum 3; VNum 4] -> True).
Proof.
  split; [left; exact bfs_nested_root_run|].
  apply (results_hold_scalars typeof_testers nested_root
           [VNum 1; VNum 2; VNum 3; VNum 4] (or_introl bfs_nested_root_run)
           (VNum 3)).
Defined.

(** The two orders on a value with leaves at three levels:
    [[1, [2, [3]]], 4, {a: 5, b: null}, /x/]]. *)
Example orders_on_uneven_value :
  let obj := VArr [VArr [VNum 1; VArr [VNum 2; VArr [VNum 3]]]; VNum 4;
                   VObj [("a", VNum 5); ("b", VNull)]; VRegExp "x" ""] in
  bfsTraversal obj typeof_testers
  = Some (Ok [VNum 4; VNum 1; VNum 5; VNum 2; VNum 3])
  /\ dfsTraversal obj typeof_testers
     = Some (Ok [VNum 5; VNum 4; VNum 3; VNum 2; VNum 1]).
Proof. split; reflexivity. Qed.

(** ** The container keeps numbers, and undoes what it did *)

Section Mutations.

Variable c : TypeGuard.t.

Lemma mutate_numbers (m : mutation) (σ : store) (xs : list value) :
  σ !! TypeGuard.data c = Some xs ->
  Forall (fun x => typeof x = "number") xs ->
  exists zs,
    mutate c m σ = Some (Ok tt, <[TypeGuard.data c := zs]> σ)
    /\ Forall (fun x => typeof x = "number") zs.
Proof.
  intros Hxs Hall.
  assert (σ = <[TypeGuard.data c := xs]> σ) as Hsame
    by (symmetry; now apply insert_id).
  destruct m as [element| |index element|index]; unfold mutate, attempt.
  - destruct (decide (typeof element = "number")) as [Hnum|Hne].
    + rewrite (push_number c element σ xs Hxs Hnum). eexists.
      split; [reflexivity|]. apply Forall_app. split; [exact Hall|].
      now constructor.
    + rewrite (push_mismatch c element σ Hne). exists xs. now rewrite <- Hsame.
  - destruct (pop_cases c σ xs Hxs) as [[-> ->]|(ys & x & -> & ->)].
    + exists []. now rewrite <- Hsame.
    + exists ys. split; [reflexivity|]. now apply Forall_app in Hall as [? _].
  - destruct (insertAt_attempt c index element σ xs Hxs)
      as [[err ->]|[Hnum ->]]; [exists xs; now rewrite <- Hsame|].
    eexists. split; [reflexivity|].
    apply splice_Forall; [exact Hall | now constructor].
  - destruct (removeAt_attempt c index σ xs Hxs) as [[err ->]|[v ->]];
      [exists xs; now rewrite <- Hsame|].
    eexists. split; [reflexivity|]. now apply splice_Forall.
Qed.

(** X6: a container whose elements are all numbers holds numbers only after
    any run of push, pop, insertAt and removeAt, the failed calls included;
    the run writes no array but the container's. *)
Theorem mutations_keep_numbers (ms : list mutation) :
  forall (σ : store) (xs : list value),
    σ !! TypeGuard.data c = Some xs ->
    Forall (fun x => typeof x = "number") xs ->
    exists zs,
      mutate_all c ms σ = Some (Ok tt, <[TypeGuard.data c := zs]> σ)
      /\ Forall (fun x => typeof x = "number") zs.
Proof.
  induction ms as [|m ms IH]; intros σ xs Hxs Hall.
  - exists xs. cbn. unfold mret, M_ret. now rewrite insert_id.
  - destruct (mutate_numbers m σ xs Hxs Hall) as (ys & Hm & Hys).
    destruct (IH (<[TypeGuard.data c := ys]> σ) ys) as (zs & Hms & Hzs);
      [apply lookup_insert_eq | exact Hys |].
    exists zs. split; [|exact Hzs].
    cbn. unfold mbind, M_bind. rewrite Hm, Hms.
    now rewrite insert_insert_eq.
Qed.

(** X7: a pop after a push of a number returns that number and leaves the
    store as it was before the push. *)
Theorem push_pop_round_trip (element : value) (σ : store) (xs : list value) :
  σ !! TypeGuard.data c = Some xs ->
  typeof element = "number" ->
  (TypeGuard.push c element ≫= fun _ => TypeGuard.pop c) σ
  = Some (Ok element, σ).
Proof.
  intros Hxs Hnum. unfold mbind at 1, M_bind at 1.
  rewrite (push_number c element σ xs Hxs Hnum).
  destruct (pop_cases c (<[TypeGuard.data c := xs ++ [element]]> σ)
              (xs ++ [element])) as [[Hnil _]|(ys & x & Hsnoc & Hpop)];
    [apply lookup_insert_eq | now destruct xs |].
  apply app_inj_tail in Hsnoc as [<- <-].
  rewrite Hpop, insert_insert_eq, insert_id by exact Hxs. reflexivity.
Qed.

Lemma inserted_length (xs : list value) (k : nat) (element : value) :
  k <= length xs ->
  length (take k xs ++ element :: drop k xs) = S (length xs).
Proof.
  intros Hk. rewrite length_app, length_take_le by exact Hk.
  simpl. rewrite length_drop. lia.
Qed.

Lemma inserted_removed (xs : list value) (k : nat) (element : value) :
  k <= length xs ->
  take k (take k xs ++ element :: drop k xs)
    ++ drop (S k) (take k xs ++ element :: drop k xs) = xs.
Proof.
  intros Hk.
  rewrite take_app_length' by (now rewrite length_take_le).
  rewrite drop_app_ge by (rewrite length_take_le; lia).
  rewrite length_take_le by exact Hk.
  replace (S k - k) with 1 by lia. simpl. rewrite drop_0. apply take_drop.
Qed.

Lemma get_inserted (xs : list value) (index : Z) (element : value) :
  (0 <= index <= Z.of_nat (length xs))%Z ->
  get (take (Z.to_nat index) xs ++ element :: drop (Z.to_nat index) xs) index
  = element.
Proof.
  intros Hin. unfold get.
  destruct (Z.ltb_spec index 0) as [Hneg|_]; [lia|].
  rewrite list_lookup_middle; [reflexivity|].
  rewrite length_take_le; lia.
Qed.

(** X8: a removeAt after an insertAt of a number at the same index returns
    that number and leaves the store as it was before the insertion. *)
Theorem insertAt_removeAt_round_trip (index : Z) (element : value)
  (σ : store) (xs : list value) :
  σ !! TypeGuard.data c = Some xs ->
  (0 <= index <= Z.of_nat (length xs))%Z ->
  typeof element = "number" ->
  (TypeGuard.insertAt c (Int index) element
     ≫= fun _ => TypeGuard.removeAt c (Int index)) σ
  = Some (Ok element, σ).
Proof.
  intros Hxs Hin Hnum. unfold mbind at 1, M_bind at 1.
  rewrite (insertAt_in_range c index element σ xs Hxs Hin Hnum).
  erewrite removeAt_in_range; [|apply lookup_insert_eq|].
  2:{ rewrite inserted_length by lia. lia. }
  rewrite get_inserted by exact Hin.
  rewrite inserted_removed by lia.
  rewrite insert_insert_eq, insert_id by exact Hxs. reflexivity.
Qed.

(** X9: after insertAt(index, element) the container is one longer, holds
    the element at the index, the elements before it where they were and
    those from it on one place further. *)
Theorem insertAt_shifts (index : Z) (element : value) (σ : store)
  (xs : list value) :
  σ !! TypeGuard.data c = Some xs ->
  (0 <= index <= Z.of_nat (length xs))%Z ->
  typeof element = "number" ->
  exists σ',
    TypeGuard.insertAt c (Int index) element σ = Some (Ok c, σ')
    /\ TypeGuard.length c σ' = Some (Ok (Z.of_nat (length xs) + 1)%Z, σ')
    /\ TypeGuard.at_ c index σ' = Some (Ok element, σ')
    /\ (forall j, (0 <= j < index)%Z ->
          TypeGuard.at_ c j σ' = Some (Ok (get xs j), σ'))
    /\ (forall j, (index < j)%Z ->
          TypeGuard.at_ c j σ' = Some (Ok (get xs (j - 1)), σ')).
Proof.
  intros Hxs Hin Hnum. eexists.
  split; [exact (insertAt_in_range c index element σ xs Hxs Hin Hnum)|].
  set (k := Z.to_nat index).
  set (zs := take k xs ++ element :: drop k xs).
  assert (<[TypeGuard.data c := zs]> σ !! TypeGuard.data c = Some zs) as Hzs
    by apply lookup_insert_eq.
  assert (length (take k xs) = k) as Hk by (apply length_take_le; lia).
  split; [|split; [|split]].
  - rewrite (length_reads c _ zs Hzs). unfold zs.
    rewrite inserted_length by lia. do 3 f_equal. lia.
  - rewrite (at_reads c index _ zs Hzs). unfold zs, k.
    now rewrite get_inserted.
  - intros j Hj. rewrite (at_reads c j _ zs Hzs). do 3 f_equal.
    unfold get, zs. destruct (Z.ltb_spec j 0) as [Hneg|_]; [lia|].
    rewrite lookup_app_l by lia. rewrite lookup_take_lt by lia. reflexivity.
  - intros j Hj. rewrite (at_reads c j _ zs Hzs). do 3 f_equal.
    unfold get, zs.
    destruct (Z.ltb_spec j 0) as [Hneg|_]; [lia|].
    destruct (Z.ltb_spec (j - 1) 0) as [Hneg|_]; [lia|].
    rewrite lookup_app_r by lia. rewrite Hk.
    replace (Z.to_nat j - k) with (S (Z.to_nat (j - 1) - k)) by lia.
    simpl. rewrite lookup_drop. do 2 f_equal. lia.
Qed.

(** X10: removeAt(index) returns the element that was at the index, and
    after it the container is one shorter, holds the elements before the
    index where they were and those after it one place nearer. *)
Theorem removeAt_shifts (index : Z) (σ : store) (xs : list value) :
  σ !! TypeGuard.data c = Some xs ->
  (0 <= index < Z.of_nat (length xs))%Z ->
  exists σ',
    TypeGuard.removeAt c (Int index) σ = Some (Ok (get xs index), σ')
    /\ TypeGuard.length c σ' = Some (Ok (Z.of_nat (length xs) - 1)%Z, σ')
    /\ (forall j, (0 <= j < index)%Z ->
          TypeGuard.at_ c j σ' = Some (Ok (get xs j), σ'))
    /\ (forall j, (index <= j)%Z ->
          TypeGuard.at_ c j σ' = Some (Ok (get xs (j + 1)), σ')).
Proof.
  intros Hxs Hin. eexists.
  split; [exact (removeAt_in_range c index σ xs Hxs Hin)|].
  set (k := Z.to_nat index).
  set (zs := take k xs ++ drop (S k) xs).
  assert (<[TypeGuard.data c := zs]> σ !! TypeGuard.data c = Some zs) as Hzs
    by apply lookup_insert_eq.
  assert (length (take k xs) = k) as Hk by (apply length_take_le; lia).
  split; [|split].
  - rewrite (length_reads c _ zs Hzs). unfold zs.
    rewrite length_app, Hk, length_drop. do 3 f_equal. lia.
  - intros j Hj. rewrite (at_reads c j _ zs Hzs). do 3 f_equal.
    unfold get, zs. destruct (Z.ltb_spec j 0) as [Hneg|_]; [lia|].
    rewrite lookup_app_l by lia. rewrite lookup_take_lt by lia. reflexivity.
  - intros j Hj. rewrite (at_reads c j _ zs Hzs). do 3 f_equal.
    unfold get, zs.
    destruct (Z.ltb_spec j 0) as [Hneg|_]; [lia|].
    destruct (Z.ltb_spec (j + 1) 0) as [Hneg|_]; [lia|].
    rewrite lookup_app_r by lia. rewrite Hk, lookup_drop.
    do 2 f_equal. lia.
Qed.

(** X11: at has no bounds check and never throws: at an index below 0 or
    from the length on it returns [undefined], and it leaves the store as
    it was; insertAt and removeAt throw there. *)
Theorem at_out_of_range (index : Z) (σ : store) (xs : list value) :
  σ !! TypeGuard.data c = Some xs ->
  ~ (0 <= index < Z.of_nat (length xs))%Z ->
  TypeGuard.at_ c index σ = Some (Ok VUndefined, σ)
  /\ TypeGuard.removeAt c (Int index) σ = out_of_range σ
  /\ (index <> Z.of_nat (length xs) ->
      forall element,
        TypeGuard.insertAt c (Int index) element σ = out_of_range σ).
Proof.
  intros Hxs Hout. split; [|split].
  - rewrite (at_reads c index σ xs Hxs). do 3 f_equal. unfold get.
    destruct (Z.ltb_spec index 0) as [Hneg|Hpos]; [reflexivity|].
    rewrite lookup_ge_None_2 by lia. reflexivity.
  - now apply (removeAt_out_of_range c index σ xs).
  - intros Hne element. apply (insertAt_out_of_range c index element σ xs Hxs).
    lia.
Qed.

End Mutations.

(** ** Derived containers *)

Section Callbacks.

Lemma map_from_returns (callback : value -> Z -> outcome value)
  (xs : list value) :
  forall k,
    (forall i x, xs !! i = Some x ->
       exists y, callback x (k + Z.of_nat i)%Z = Ok y) ->
    exists ys,
      map_from callback k xs = Ok ys
      /\ length ys = length xs
      /\ forall i x, xs !! i = Some x ->
           exists y, callback x (k + Z.of_nat i)%Z = Ok y /\ ys !! i = Some y.
Proof.
  induction xs as [|x xs IH]; intros k Hret.
  { exists []. repeat split. intros i x Hx. discriminate. }
  destruct (Hret 0 x eq_refl) as [y Hy].
  rewrite Z.add_0_r in Hy.
  destruct (IH (k + 1)%Z) as (ys & Hys & Hlen & Hlook).
  { intros i x' Hx'. destruct (Hret (S i) x' Hx') as [y' Hy'].
    exists y'. rewrite <- Hy'. f_equal. lia. }
  exists (y :: ys). simpl. rewrite Hy, Hys.
  split; [reflexivity|]. split; [now rewrite Hlen|].
  intros [|i] x' Hx'; simpl in *.
  - injection Hx' as <-. exists y. rewrite Z.add_0_r. now split.
  - destruct (Hlook i x' Hx') as (y' & Hy' & Hi). exists y'.
    split; [|exact Hi]. rewrite <- Hy'. f_equal. lia.
Qed.

Lemma filter_from_returns (callback : value -> Z -> outcome bool)
  (xs : list value) :
  forall k,
    (forall i x, xs !! i = Some x ->
       exists b, callback x (k + Z.of_nat i)%Z = Ok b) ->
    exists kept,
      filter_from callback k xs = Ok kept
      /\ kept `sublist_of` xs
      /\ (forall y, y ∈ kept ->
            exists i, xs !! i = Some y
              /\ callback y (k + Z.of_nat i)%Z = Ok true)
      /\ (forall i x, xs !! i = Some x ->
            callback x (k + Z.of_nat i)%Z = Ok true -> x ∈ kept).
Proof.
  induction xs as [|x xs IH]; intros k Hret.
  { exists []. split; [reflexivity|]. split; [constructor|].
    split; [intros y Hy; now apply elem_of_nil in Hy | discriminate]. }
  destruct (Hret 0 x eq_refl) as [b Hb].
  rewrite Z.add_0_r in Hb.
  destruct (IH (k + 1)%Z) as (kept & Hkept & Hsub & Hin & Hall).
  { intros i x' Hx'. destruct (Hret (S i) x' Hx') as [b' Hb'].
    exists b'. rewrite <- Hb'. f_equal. lia. }
  assert (forall y, y ∈ kept ->
            exists i, (x :: xs) !! i = Some y
              /\ callback y (k + Z.of_nat i)%Z = Ok true) as Hin'.
  { intros y Hy. destruct (Hin y Hy) as (i & Hi & Hc). exists (S i).
    split; [exact Hi|]. rewrite <- Hc. f_equal. lia. }
  exists (if b then x :: kept else kept). simpl. rewrite Hb, Hkept.
  split; [reflexivity|]. split; [|split].
  - destruct b; [now apply sublist_skip | now apply sublist_cons].
  - intros y Hy. destruct b; [|now apply Hin'].
    apply elem_of_cons in Hy as [->|Hy]; [|now apply Hin'].
    exists 0. rewrite Z.add_0_r. now split.
  - intros [|i] x' Hx' Hc; simpl in *.
    + injection Hx' as <-. rewrite Z.add_0_r, Hb in Hc. injection Hc as ->.
      apply list_elem_of_here.
    + assert (x' ∈ kept) as Hk.
      { apply (Hall i x' Hx'). rewrite <- Hc. f_equal. lia. }
      destruct b; [now apply list_elem_of_further | exact Hk].
Qed.

Lemma filter_from_chosen (callback : value -> Z -> outcome bool)
  (xs : list value) :
  forall k kept,
    filter_from callback k xs = Ok kept ->
    kept
    = (List.filter (says_true callback)
         (imap (fun i x => ((k + Z.of_nat i)%Z, x)) xs)).*2.
Proof.
  induction xs as [|x xs IH]; intros k kept; simpl.
  { now intros [= <-]. }
  unfold says_true at 1. simpl. rewrite Z.add_0_r.
  destruct (callback x k) as [b|e]; [|discriminate].
  destruct (filter_from callback (k + 1) xs) as [rest|e] eqn:Hrest;
    [|discriminate].
  intros [= <-]. rewrite (IH (k + 1)%Z rest Hrest).
  assert (imap (fun i x0 => ((k + 1 + Z.of_nat i)%Z, x0)) xs
          = imap ((fun i x0 => ((k + Z.of_nat i)%Z, x0)) ∘ S) xs) as ->.
  { apply imap_ext. intros i y _. simpl. f_equal. lia. }
  now destruct b.
Qed.

Variable c : TypeGuard.t.

(** X12: with a callback that returns on every element, map returns a
    container on a new array and leaves the original as it was; the new
    array has the length of the original and holds, at each index, what the
    callback returned there, of whatever type: map checks no type. *)
Theorem map_new_container (callback : value -> Z -> outcome value)
  (σ : store) (xs : list value) :
  σ !! TypeGuard.data c = Some xs ->
  (forall i x, xs !! i = Some x -> exists y, callback x (Z.of_nat i) = Ok y) ->
  exists mapped σ' ys,
    TypeGuard.map c callback σ = Some (Ok mapped, σ')
    /\ TypeGuard.data mapped <> TypeGuard.data c
    /\ σ' !! TypeGuard.data c = Some xs
    /\ σ' !! TypeGuard.data mapped = Some ys
    /\ length ys = length xs
    /\ forall i x, xs !! i = Some x ->
         exists y, callback x (Z.of_nat i) = Ok y /\ ys !! i = Some y.
Proof.
  intros Hxs Hret.
  destruct (map_from_returns callback xs 0) as (ys & Hys & Hlen & Hlook);
    [exact Hret|].
  pose proof (fresh_not_held σ _ xs Hxs) as Hfresh.
  exists {| TypeGuard.data := fresh (dom σ) |}, (<[fresh (dom σ) := ys]> σ), ys.
  split.
  { unfold TypeGuard.map, Array_map. run. rewrite Hxs. cbn. rewrite Hys. cbn.
    rewrite lookup_insert_eq. reflexivity. }
  split; [exact Hfresh|].
  split; [now rewrite lookup_insert_ne|].
  split; [apply lookup_insert_eq|]. split; [exact Hlen | exact Hlook].
Qed.

(** X13: with a callback that returns on every element, filter returns a
    container on a new array and leaves the original as it was; the new
    array holds exactly the elements at which the callback returned true,
    each as many times as the callback chose it, in their order. *)
Theorem filter_new_container (callback : value -> Z -> outcome bool)
  (σ : store) (xs : list value) :
  σ !! TypeGuard.data c = Some xs ->
  (forall i x, xs !! i = Some x -> exists b, callback x (Z.of_nat i) = Ok b) ->
  exists filtered σ',
    TypeGuard.filter c callback σ = Some (Ok filtered, σ')
    /\ TypeGuard.data filtered <> TypeGuard.data c
    /\ σ' !! TypeGuard.data c = Some xs
    /\ σ' !! TypeGuard.data filtered = Some (chosen callback xs)
    /\ chosen callback xs `sublist_of` xs
    /\ (forall y, y ∈ chosen callback xs ->
          exists i, xs !! i = Some y /\ callback y (Z.of_nat i) = Ok true)
    /\ (forall i x, xs !! i = Some x ->
          callback x (Z.of_nat i) = Ok true -> x ∈ chosen callback xs).
Proof.
  intros Hxs Hret.
  destruct (filter_from_returns callback xs 0)
    as (kept & Hkept & Hsub & Hin & Hall); [exact Hret|].
  assert (kept = chosen callback xs) as Hchosen
    by exact (filter_from_chosen callback xs 0 kept Hkept).
  subst kept.
  pose proof (fresh_not_held σ _ xs Hxs) as Hfresh.
  exists {| TypeGuard.data := fresh (dom σ) |},
    (<[fresh (dom σ) := chosen callback xs]> σ).
  split.
  { unfold TypeGuard.filter, Array_filter. run. rewrite Hxs. cbn.
    rewrite Hkept. cbn. rewrite lookup_insert_eq. reflexivity. }
  split; [exact Hfresh|].
  split; [now rewrite lookup_insert_ne|].
  split; [apply lookup_insert_eq|].
  split; [exact Hsub|]. split; [exact Hin | exact Hall].
Qed.

Lemma map_from_throws (callback : value -> Z -> outcome value) (e : exn)
  (xs : list value) :
  forall k i x,
    xs !! i = Some x ->
    callback x (k + Z.of_nat i)%Z = Throw e ->
    (forall j x', j < i -> xs !! j = Some x' ->
       exists y, callback x' (k + Z.of_nat j)%Z = Ok y) ->
    map_from callback k xs = Throw e.
Proof.
  induction xs as [|x0 xs IH]; intros k i x Hx Hthrow Hbefore;
    [discriminate|].
  destruct i as [|i]; simpl in *.
  - injection Hx as <-. rewrite Z.add_0_r in Hthrow. now rewrite Hthrow.
  - destruct (Hbefore 0 x0) as [y Hy]; [lia | reflexivity |].
    rewrite Z.add_0_r in Hy. rewrite Hy.
    rewrite (IH (k + 1)%Z i x Hx); [reflexivity| |].
    + rewrite <- Hthrow. f_equal. lia.
    + intros j x' Hj Hx'. destruct (Hbefore (S j) x') as [y' Hy'];
        [lia | exact Hx' |]. exists y'. rewrite <- Hy'. f_equal. lia.
Qed.

Lemma filter_from_throws (callback : value -> Z -> outcome bool) (e : exn)
  (xs : list value) :
  forall k i x,
    xs !! i = Some x ->
    callback x (k + Z.of_nat i)%Z = Throw e ->
    (forall j x', j < i -> xs !! j = Some x' ->
       exists b, callback x' (k + Z.of_nat j)%Z = Ok b) ->
    filter_from callback k xs = Throw e.
Proof.
  induction xs as [|x0 xs IH]; intros k i x Hx Hthrow Hbefore;
    [discriminate|].
  destruct i as [|i]; simpl in *.
  - injection Hx as <-. rewrite Z.add_0_r in Hthrow. now rewrite Hthrow.
  - destruct (Hbefore 0 x0) as [b Hb]; [lia | reflexivity |].
    rewrite Z.add_0_r in Hb. rewrite Hb.
    rewrite (IH (k + 1)%Z i x Hx); [reflexivity| |].
    + rewrite <- Hthrow. f_equal. lia.
    + intros j x' Hj Hx'. destruct (Hbefore (S j) x') as [b' Hb'];
        [lia | exact Hx' |]. exists b'. rewrite <- Hb'. f_equal. lia.
Qed.

(** X14: when the callback throws at an element, having returned at the
    ones before, map and filter throw that error, build no container and
    leave the store as it was. *)
Theorem callback_error_propagates (e : exn) (i : nat) (x : value)
  (σ : store) (xs : list value) :
  σ !! TypeGuard.data c = Some xs ->
  xs !! i = Some x ->
  (forall callback : value -> Z -> outcome value,
     callback x (Z.of_nat i) = Throw e ->
     (forall j x', j < i -> xs !! j = Some x' ->
        exists y, callback x' (Z.of_nat j) = Ok y) ->
     TypeGuard.map c callback σ = Some (Throw e, σ))
  /\ (forall callback : value -> Z -> outcome bool,
        callback x (Z.of_nat i) = Throw e ->
        (forall j x', j < i -> xs !! j = Some x' ->
           exists b, callback x' (Z.of_nat j) = Ok b) ->
        TypeGuard.filter c callback σ = Some (Throw e, σ)).
Proof.
  intros Hxs Hx. split; intros callback Hthrow Hbefore.
  - unfold TypeGuard.map, Array_map. run. rewrite Hxs. cbn.
    now rewrite (map_from_throws callback e xs 0 i x Hx Hthrow Hbefore).
  - unfold TypeGuard.filter, Array_filter. run. rewrite Hxs. cbn.
    now rewrite (filter_from_throws callback e xs 0 i x Hx Hthrow Hbefore).
Qed.

Lemma reduce_from_snoc (callback : value -> value -> Z -> outcome value)
  (element : value) (xs : list value) :
  forall k accumulator,
    reduce_from callback k accumulator (xs ++ [element])
    = match reduce_from callback k accumulator xs with
      | Ok acc => callback acc element (k + Z.of_nat (length xs))%Z
      | Throw e => Throw e
      end.
Proof.
  induction xs as [|x xs IH]; intros k accumulator; simpl.
  - rewrite Z.add_0_r. now destruct (callback accumulator element k).
  - destruct (callback accumulator x k) as [acc|e]; [|reflexivity].
    rewrite IH. destruct (reduce_from callback (k + 1) acc xs);
      [|reflexivity]. f_equal. lia.
Qed.

(** X15: reduce folds from the left, starting from initialValue: on an
    empty container it returns initialValue, whatever the callback, and
    after a push its result is the callback applied to the result before
    the push, the pushed element and that element's index. *)
Theorem reduce_folds_left (callback : value -> value -> Z -> outcome value)
  (initialValue element : value) (σ : store) (xs : list value) :
  σ !! TypeGuard.data c = Some xs ->
  typeof element = "number" ->
  (xs = [] -> TypeGuard.reduce c callback initialValue σ
              = Some (Ok initialValue, σ))
  /\ exists before,
       TypeGuard.reduce c callback initialValue σ = Some (before, σ)
       /\ (TypeGuard.push c element
             ≫= fun _ => TypeGuard.reduce c callback initialValue) σ
          = Some (match before with
                  | Ok acc => callback acc element (Z.of_nat (length xs))
                  | Throw e => Throw e
                  end,
                  <[TypeGuard.data c := xs ++ [element]]> σ).
Proof.
  intros Hxs Hnum. split.
  - intros ->. unfold TypeGuard.reduce. run. rewrite Hxs. reflexivity.
  - exists (Array_reduce callback initialValue xs). split.
    + unfold TypeGuard.reduce. run. rewrite Hxs. reflexivity.
    + unfold mbind at 1, M_bind at 1.
      rewrite (push_number c element σ xs Hxs Hnum).
      unfold TypeGuard.reduce. run. rewrite lookup_insert_eq. cbn.
      unfold Array_reduce. now rewrite reduce_from_snoc.
Qed.

Lemma reduce_from_total (callback : value -> value -> Z -> outcome value)
  (xs : list value) :
  (forall a b i, safe a = true -> safe b = true -> safe (a + b) = true ->
     callback (VNum a) (VNum b) i = Ok (VNum (a + b))) ->
  Forall (fun x => exists n, x = VNum n /\ safe n = true) xs ->
  forall k a,
    (forall j, j <= length xs -> safe (a + total (take j xs)) = true) ->
    reduce_from callback k (VNum a) xs = Ok (VNum (a + total xs)).
Proof.
  intros Hplus. induction 1 as [|x xs (n & -> & Hn) _ IH]; intros k a Hsums;
    simpl.
  - now rewrite Z.add_0_r.
  - assert (safe a = true) as Ha.
    { specialize (Hsums 0 ltac:(lia)). simpl in Hsums.
      now rewrite Z.add_0_r in Hsums. }
    assert (safe (a + n) = true) as Han.
    { specialize (Hsums 1 ltac:(simpl; lia)). simpl in Hsums.
      now rewrite Z.add_0_r in Hsums. }
    rewrite (Hplus a n k Ha Hn Han), IH.
    + do 2 f_equal. lia.
    + intros j Hj. specialize (Hsums (S j) ltac:(simpl; lia)).
      simpl in Hsums. now rewrite Z.add_assoc in Hsums.
Qed.

(** X16: on a container of integers that numbers hold exactly, those from
    -2^53 to 2^53, when the sum of the first k elements is such an integer
    for every k, so that no addition rounds, reduce with a callback that
    adds two numbers, started from 0, returns the sum of the elements. *)
Theorem reduce_sums (callback : value -> value -> Z -> outcome value)
  (σ : store) (xs : list value) :
  σ !! TypeGuard.data c = Some xs ->
  Forall (fun x => exists n, x = VNum n /\ safe n = true) xs ->
  (forall j, j <= length xs -> safe (total (take j xs)) = true) ->
  (forall a b i, safe a = true -> safe b = true -> safe (a + b) = true ->
     callback (VNum a) (VNum b) i = Ok (VNum (a + b))) ->
  TypeGuard.reduce c callback (VNum 0) σ = Some (Ok (VNum (total xs)), σ).
Proof.
  intros Hxs Hall Hsums Hplus. unfold TypeGuard.reduce. run. rewrite Hxs. cbn.
  unfold Array_reduce.
  now rewrite (reduce_from_total callback xs Hplus Hall 0%Z 0%Z Hsums).
Qed.

Lemma SameValueZero_inject (p : primitive) (x : value) :
  SameValueZero p x = true <-> x = inject p.
Proof.
  destruct p, x; simpl; split; try discriminate; try reflexivity.
  - intros H. apply Bool.eqb_prop in H. now subst.
  - intros [= ->]. apply Bool.eqb_reflx.
  - intros H. apply Z.eqb_eq in H. now subst.
  - intros [= ->]. apply Z.eqb_refl.
  - intros H. apply Z.eqb_eq in H. now subst.
  - intros [= ->]. apply Z.eqb_refl.
  - intros H. apply String.eqb_eq in H. now subst.
  - intros [= ->]. apply String.eqb_refl.
Qed.

Lemma Array_includes_elem_of (xs : list value) (p : primitive) :
  Array_includes xs p = true <-> inject p ∈ xs.
Proof.
  unfold Array_includes. rewrite existsb_exists. split.
  - intros (x & Hin & Heq). apply SameValueZero_inject in Heq as ->.
    now apply list_elem_of_In.
  - intros Hin. exists (inject p). split; [now apply list_elem_of_In|].
    now apply SameValueZero_inject.
Qed.

(** X17: contains returns true exactly when the searched primitive value is
    an element, and leaves the store as it was; after a push of a number,
    contains finds that number. *)
Theorem contains_finds (p : primitive) (σ : store) (xs : list value) :
  σ !! TypeGuard.data c = Some xs ->
  (exists b, TypeGuard.contains c p σ = Some (Ok b, σ)
     /\ (b = true <-> inject p ∈ xs))
  /\ (typeof (inject p) = "number" ->
      (TypeGuard.push c (inject p) ≫= fun _ => TypeGuard.contains c p) σ
      = Some (Ok true, <[TypeGuard.data c := xs ++ [inject p]]> σ)).
Proof.
  intros Hxs. split.
  - exists (Array_includes xs p). split.
    + unfold TypeGuard.contains. run. rewrite Hxs. reflexivity.
    + apply Array_includes_elem_of.
  - intros Hnum. unfold mbind at 1, M_bind at 1.
    rewrite (push_number c (inject p) σ xs Hxs Hnum).
    unfold TypeGuard.contains. run. rewrite lookup_insert_eq. cbn.
    do 3 f_equal. apply Array_includes_elem_of.
    apply elem_of_app. right. apply list_elem_of_here.
Qed.

End Callbacks.

(** X18: the constructor takes arrays only: for any other value than
    [undefined], a string or an object with a length among them, it throws
    the type error and leaves the store as it was; for [undefined], or no
    argument, it returns a container on a new empty array. *)
Theorem constructor_takes_arrays (v : value) (σ : store) :
  Array_isArray v = false ->
  (v <> VUndefined ->
   TypeGuard.constructor (ByValue v) σ
   = Some (Throw (TypeError "Initial values must be an array-like structure"),
           σ))
  /\ (v = VUndefined ->
      exists c, TypeGuard.constructor (ByValue v) σ
                = Some (Ok c, <[TypeGuard.data c := []]> σ)
        /\ σ !! TypeGuard.data c = None).
Proof.
  intros Harr. split.
  - intros Hne. destruct v; try discriminate; try reflexivity.
    now destruct Hne.
  - intros ->. exists {| TypeGuard.data := fresh (dom σ) |}.
    split; [reflexivity|]. apply not_elem_of_dom, is_fresh.
Qed.

(** ** The free functions and the names of the types *)

Lemma checker_returns (typeCheckFunc : predicate) (v : value) :
  throws_errors typeCheckFunc -> exists b, checker typeCheckFunc v = Ok b.
Proof.
  intros Herr. unfold checker, createChecker.
  destruct (typeCheckFunc v) as [b|e] eqn:E; simpl; [eauto|].
  specialize (Herr v e E). destruct e; try discriminate; simpl; eauto.
Qed.

Lemma classify_checkers (typeEnum : gmap string predicate) (x : value) :
  (forall name, name ∈ consulted ->
     exists f, typeEnum !! name = Some (checker f) /\ throws_errors f) ->
  exists b, classify typeEnum x = Ok b.
Proof.
  intros Hall. rewrite classify_first_match.
  assert (Forall (fun name => exists f, typeEnum !! name = Some (checker f)
                                /\ throws_errors f)
            consulted) as Hnames by (apply Forall_forall; exact Hall).
  clear Hall.
  induction Hnames as [|name names (f & Hf & Herr) _ IH]; simpl; [eauto|].
  unfold call. rewrite Hf.
  destruct (checker_returns f x Herr) as [[|] ->]; eauto.
Qed.

(** X19: a checker made by createChecker returns what the wrapped function
    returns, and false, with a line on the console, where that function
    throws an error object; where that function throws null or undefined,
    the checker throws a type error of its own.  With four testers that are
    checkers of functions that throw error objects only, the chain of
    testers returns at every leaf of every value. *)
Theorem checkers_catch_errors (typeEnum : gmap string predicate) :
  (forall name, name ∈ consulted ->
     exists f, typeEnum !! name = Some (checker f) /\ throws_errors f) ->
  (forall f v b, f v = Ok b -> createChecker f v = (Ok b, []))
  /\ (forall f v e msg,
        f v = Throw e -> message e = Ok (VStr msg) ->
        createChecker f v
        = (Ok false, ["Type check function failed: " +:+ msg]))
  /\ (forall f v,
        f v = Throw (Thrown VNull) \/ f v = Throw (Thrown VUndefined) ->
        exists err, createChecker f v = (Throw (TypeError err), []))
  /\ forall obj, testers_return typeEnum obj.
Proof.
  intros Hall. split; [|split; [|split]].
  - intros f v b Hf. unfold createChecker. now rewrite Hf.
  - intros f v e msg Hf Hmsg. unfold createChecker. now rewrite Hf, Hmsg.
  - intros f v [Hf|Hf]; unfold createChecker; rewrite Hf; simpl; eauto.
  - intros obj x _. now apply classify_checkers.
Qed.

(** X20: assertType returns its argument, and only when the checker
    accepts it; when the checker rejects the value it throws an error whose
    message prints the value, and for a value that has no string, a symbol,
    the type error of the conversion instead. *)
Theorem assertType_returns_accepted (v : value) (typeChecker : predicate) :
  (forall v', assertType v typeChecker = Ok v'
              <-> v' = v /\ typeChecker v = Ok true)
  /\ (forall s, typeChecker v = Ok false -> ToString v = Ok s ->
        assertType v typeChecker
        = Throw (Error ("Type assertion failed for value: " +:+ s)))
  /\ (forall description, v = VSymbol description ->
        typeChecker v = Ok false ->
        assertType v typeChecker
        = Throw (TypeError "Cannot convert a Symbol value to a string")).
Proof.
  unfold assertType. split; [|split].
  - intros v'. destruct (typeChecker v) as [[|]|e].
    + split; [intros [= <-]; now split | intros [-> _]; reflexivity].
    + split; [|intros [_ [=]]]. destruct (ToString v); discriminate.
    + split; [discriminate | intros [_ [=]]].
  - intros s -> ->. reflexivity.
  - intros description -> ->. reflexivity.
Qed.

Lemma typeof_in_names (v : value) : typeof v ∈ typeof_names.
Proof.
  unfold typeof_names. destruct v; simpl; rewrite !elem_of_cons; tauto.
Qed.

Lemma names_beyond_typeof_disjoint (name : string) :
  name ∈ names_beyond_typeof -> name ∉ typeof_names.
Proof.
  intros H Hin. apply list_elem_of_In in H, Hin. simpl in H, Hin.
  repeat (destruct H as [<-|H]; [intuition discriminate|]). exact H.
Qed.

Lemma names_beyond_typeof_in_Types (name : string) :
  name ∈ names_beyond_typeof -> name ∈ Types.*2.
Proof.
  intros H. apply list_elem_of_In in H. apply list_elem_of_In.
  simpl in *. tauto.
Qed.

(** X21: typeGuard and assertType of the class compare with [typeof]: of
    the names of [Types], null, void, never, array, date, regexp, map, set,
    promise, iterable, file, blob, email, phone and url are the type of no
    value, and both throw for them on every value, an array with "array"
    and [null] with "null" included. *)
Theorem names_beyond_typeof_rejected (v : value) (name : string) :
  name ∈ names_beyond_typeof ->
  name ∈ Types.*2
  /\ TypeGuard.typeGuard v name
     = Throw (TypeError ("Expected type " +:+ name
                         +:+ ", but received " +:+ typeof v))
  /\ TypeGuard.assertType v name
     = Throw (TypeError ("Expected type " +:+ name
                         +:+ ", but received " +:+ typeof v)).
Proof.
  intros Hname. split; [now apply names_beyond_typeof_in_Types|].
  assert (String.eqb (typeof v) name = false) as Hne.
  { apply String.eqb_neq. intros Heq.
    apply (names_beyond_typeof_disjoint name Hname).
    rewrite <- Heq. apply typeof_in_names. }
  unfold TypeGuard.typeGuard, TypeGuard.assertType. now rewrite Hne.
Qed.

(** ** The patterns of typeCheckers *)

Section Patterns.

Lemma nullable_matches (r : regex) : nullable r = true <-> matches r [].
Proof.
  induction r as [| |class|r1 IH1 r2 IH2|r1 IH1 r2 IH2|r IH]; simpl.
  - split; [discriminate | intros H; inv H].
  - split; [constructor | reflexivity].
  - split; [discriminate | intros H; inv H].
  - rewrite andb_true_iff, IH1, IH2. split.
    + intros [H1 H2]. now apply (matches_Seq r1 r2 [] []).
    + intros H. inv H.
      match goal with
      | Heq : _ ++ _ = [] |- _ => apply app_eq_nil in Heq as [-> ->]
      end. now split.
  - rewrite orb_true_iff, IH1, IH2. split.
    + intros [H|H]; [now apply matches_Alt_l | now apply matches_Alt_r].
    + intros H. inv H; tauto.
  - split; [constructor | reflexivity].
Qed.

Lemma matches_Star_cons (r : regex) (a : Ascii.ascii) (s : list Ascii.ascii) :
  matches (Star r) (a :: s) ->
  exists s1 s2, s = s1 ++ s2 /\ matches r (a :: s1) /\ matches (Star r) s2.
Proof.
  intros H. remember (Star r) as r' eqn:Hr. remember (a :: s) as s' eqn:Hs.
  revert s Hs.
  induction H as [| | | | | |r0 s1 s2 H1 _ H2 IH2]; try discriminate.
  injection Hr as ->. intros s Hs. destruct s1 as [|a1 s1]; simpl in Hs.
  - now apply IH2.
  - injection Hs as -> <-. eauto.
Qed.

Lemma deriv_matches (a : Ascii.ascii) (r : regex) :
  forall s, matches (deriv a r) s <-> matches r (a :: s).
Proof.
  induction r as [| |class|r1 IH1 r2 IH2|r1 IH1 r2 IH2|r IH]; intros s; simpl.
  - split; intros H; inv H.
  - split; intros H; inv H.
  - destruct (class a) eqn:Hclass.
    + split; intros H; inv H; [now constructor | constructor].
    + split; intros H; inv H. congruence.
  - destruct (nullable r1) eqn:Hnull.
    + split.
      * intros H. inv H.
        -- match goal with
           | Hseq : matches (Seq _ _) _ |- _ => inv Hseq
           end.
           apply (matches_Seq r1 r2 (a :: _)); [now apply IH1 | assumption].
        -- apply (matches_Seq r1 r2 []);
             [now apply nullable_matches | now apply IH2].
      * intros H. inv H. destruct s1 as [|a1 s1]; simpl in *.
        -- subst. apply matches_Alt_r. now apply IH2.
        -- match goal with
           | Heq : _ :: _ = _ :: _ |- _ => injection Heq as -> <-
           end.
           apply matches_Alt_l. constructor; [now apply IH1 | assumption].
    + split.
      * intros H. inv H.
        apply (matches_Seq r1 r2 (a :: _)); [now apply IH1 | assumption].
      * intros H. inv H. destruct s1 as [|a1 s1]; simpl in *.
        -- match goal with
           | Hnil : matches r1 [] |- _ => apply nullable_matches in Hnil
           end. congruence.
        -- match goal with
           | Heq : _ :: _ = _ :: _ |- _ => injection Heq as -> <-
           end.
           constructor; [now apply IH1 | assumption].
  - split; intros H; inv H;
      try (apply matches_Alt_l; now apply IH1);
      try (apply matches_Alt_r; now apply IH2).
  - split.
    + intros H. inv H.
      apply (matches_Star_app r (a :: _)); [now apply IH | assumption].
    + intros H. apply matches_Star_cons in H as (s1 & s2 & -> & H1 & H2).
      constructor; [now apply IH | assumption].
Qed.

(** [test] decides the language of the pattern. *)
Lemma test_chars_matches (s : list Ascii.ascii) :
  forall r, test_chars r s = true <-> matches r s.
Proof.
  induction s as [|a s IH]; intros r; simpl.
  - apply nullable_matches.
  - rewrite IH. apply deriv_matches.
Qed.

Lemma matches_Seq_iff (r1 r2 : regex) (s : list Ascii.ascii) :
  matches (Seq r1 r2) s
  <-> exists s1 s2, s = s1 ++ s2 /\ matches r1 s1 /\ matches r2 s2.
Proof.
  split.
  - intros H. inv H. eauto.
  - intros (s1 & s2 & -> & H1 & H2). now constructor.
Qed.

Lemma matches_Chr_iff (class : Ascii.ascii -> bool) (s : list Ascii.ascii) :
  matches (Chr class) s <-> exists a, s = [a] /\ class a = true.
Proof.
  split.
  - intros H. inv H. eauto.
  - intros (a & -> & H). now constructor.
Qed.

Lemma matches_Lit_iff (c : Ascii.ascii) (s : list Ascii.ascii) :
  matches (Lit c) s <-> s = [c].
Proof.
  unfold Lit. rewrite matches_Chr_iff. split.
  - intros (a & -> & H). apply Ascii.eqb_eq in H. now subst.
  - intros ->. exists c. split; [reflexivity | apply Ascii.eqb_refl].
Qed.

Lemma matches_Star_class (class : Ascii.ascii -> bool) (s : list Ascii.ascii) :
  matches (Star (Chr class)) s <-> forallb class s = true.
Proof.
  split.
  - intros H. remember (Star (Chr class)) as r eqn:Hr.
    induction H as [| | | | | |r0 s1 s2 H1 _ H2 IH2]; try discriminate.
    + reflexivity.
    + injection Hr as ->. inv H1. simpl. rewrite andb_true_iff. auto.
  - induction s as [|a s IH]; simpl; [constructor|].
    rewrite andb_true_iff. intros [Ha Hs].
    apply (matches_Star_app (Chr class) [a] s); [now constructor | auto].
Qed.

Lemma matches_Repeat_class (class : Ascii.ascii -> bool) (n : nat) :
  forall s, matches (Repeat n (Chr class)) s
            <-> length s = n /\ forallb class s = true.
Proof.
  induction n as [|n IH]; intros s; simpl.
  - split.
    + intros H. inv H. now split.
    + intros [Hlen _]. destruct s; [constructor | discriminate].
  - rewrite matches_Seq_iff. split.
    + intros (s1 & s2 & -> & H1 & H2). apply matches_Chr_iff in H1 as (a & -> & Ha).
      apply IH in H2 as [<- H2]. simpl. now rewrite Ha.
    + intros [Hlen Hall]. destruct s as [|a s]; [discriminate|].
      simpl in *. apply andb_true_iff in Hall as [Ha Hs].
      exists [a], s. split; [reflexivity|].
      split; [now constructor | apply IH; split; [lia | exact Hs]].
Qed.

Lemma matches_Upto_class (class : Ascii.ascii -> bool) (n : nat) :
  forall s, matches (Upto n (Chr class)) s
            <-> length s <= n /\ forallb class s = true.
Proof.
  induction n as [|n IH]; intros s; simpl.
  - split.
    + intros H. inv H. now split.
    + intros [Hlen _]. destruct s; [constructor | simpl in Hlen; lia].
  - unfold Opt. split.
    + intros H. inv H.
      * match goal with
        | Hseq : matches (Seq _ _) _ |- _ =>
          apply matches_Seq_iff in Hseq as (s1 & s2 & -> & H1 & H2)
        end.
        apply matches_Chr_iff in H1 as (a & -> & Ha).
        apply IH in H2 as [Hlen H2]. simpl. rewrite Ha. split; [lia | exact H2].
      * match goal with
        | Heps : matches Eps _ |- _ => inv Heps
        end. split; [simpl; lia | reflexivity].
    + intros [Hlen Hall]. destruct s as [|a s].
      * apply matches_Alt_r. constructor.
      * simpl in *. apply andb_true_iff in Hall as [Ha Hs].
        apply matches_Alt_l. apply (matches_Seq _ _ [a] s); [now constructor|].
        apply IH. split; [lia | exact Hs].
Qed.

Lemma matches_AtLeast_class (class : Ascii.ascii -> bool) (n : nat)
  (s : list Ascii.ascii) :
  matches (AtLeast n (Chr class)) s
  <-> n <= length s /\ forallb class s = true.
Proof.
  unfold AtLeast. rewrite matches_Seq_iff. split.
  - intros (s1 & s2 & -> & H1 & H2).
    apply matches_Repeat_class in H1 as [<- H1].
    apply matches_Star_class in H2.
    rewrite length_app, forallb_app, H1, H2. split; [lia | reflexivity].
  - intros [Hlen Hall]. exists (take n s), (drop n s).
    rewrite <- (take_drop n s) in Hall at 1.
    rewrite forallb_app in Hall. apply andb_true_iff in Hall as [H1 H2].
    split; [now rewrite take_drop|]. split.
    + apply matches_Repeat_class. split; [now apply length_take_le | exact H1].
    + now apply matches_Star_class.
Qed.

Lemma matches_Between_class (class : Ascii.ascii -> bool) (lo hi : nat)
  (s : list Ascii.ascii) :
  lo <= hi ->
  matches (Between lo hi (Chr class)) s
  <-> lo <= length s <= hi /\ forallb class s = true.
Proof.
  intros Hle. unfold Between. rewrite matches_Seq_iff. split.
  - intros (s1 & s2 & -> & H1 & H2).
    apply matches_Repeat_class in H1 as [<- H1].
    apply matches_Upto_class in H2 as [Hlen H2].
    rewrite length_app, forallb_app, H1, H2. split; [lia | reflexivity].
  - intros [Hlen Hall]. exists (take lo s), (drop lo s).
    rewrite <- (take_drop lo s) in Hall at 1.
    rewrite forallb_app in Hall. apply andb_true_iff in Hall as [H1 H2].
    split; [now rewrite take_drop|]. split.
    + apply matches_Repeat_class. split; [apply length_take_le; lia | exact H1].
    + apply matches_Upto_class. rewrite length_drop. split; [lia | exact H2].
Qed.

Lemma matches_Plus_class (class : Ascii.ascii -> bool) (s : list Ascii.ascii) :
  matches (Plus (Chr class)) s <-> s <> [] /\ forallb class s = true.
Proof.
  unfold Plus. rewrite matches_Seq_iff. split.
  - intros (s1 & s2 & -> & H1 & H2). apply matches_Chr_iff in H1 as (a & -> & Ha).
    apply matches_Star_class in H2. simpl. rewrite Ha, H2. now split.
  - intros [Hne Hall]. destruct s as [|a s]; [now destruct Hne|].
    simpl in Hall. apply andb_true_iff in Hall as [Ha Hs].
    exists [a], s. split; [reflexivity|].
    split; [now constructor | now apply matches_Star_class].
Qed.

End Patterns.

Lemma Ok_true_iff (b : bool) : (Ok b : outcome bool) = Ok true <-> b = true.
Proof. split; [now intros [= ->] | now intros ->]. Qed.

(** X22: isPhone accepts a string exactly when it is an optional plus sign,
    a digit from 1 to 9 and then from 1 to 14 further digits. *)
Theorem isPhone_shape (s : string) :
  typeCheckers.isPhone (VStr s) = Ok true
  <-> exists sign d rest,
        String.list_ascii_of_string s = sign ++ d :: rest
        /\ (sign = [] \/ sign = [plus_sign])
        /\ nonzero_digit d = true
        /\ forallb digit rest = true
        /\ 1 <= length rest <= 14.
Proof.
  unfold typeCheckers.isPhone. cbn [ToString]. rewrite Ok_true_iff.
  unfold test. rewrite test_chars_matches.
  unfold typeCheckers.phone_pattern. rewrite matches_Seq_iff. split.
  - intros (sign & tail & Hs & Hsign & Htail).
    apply matches_Seq_iff in Htail as (ds & rest & -> & Hd & Hrest).
    apply matches_Chr_iff in Hd as (d & -> & Hd).
    apply matches_Between_class in Hrest as [Hlen Hrest]; [|lia].
    exists sign, d, rest. split; [exact Hs|]. split.
    + unfold Opt in Hsign. inv Hsign.
      * right. now apply matches_Lit_iff.
      * left. match goal with Heps : matches Eps _ |- _ => now inv Heps end.
    + repeat split; (assumption || lia).
  - intros (sign & d & rest & Hs & Hsign & Hd & Hrest & Hlen).
    exists sign, (d :: rest). split; [exact Hs|]. split.
    + unfold Opt. destruct Hsign as [->| ->].
      * apply matches_Alt_r. constructor.
      * apply matches_Alt_l. now apply matches_Lit_iff.
    + apply matches_Seq_iff. exists [d], rest. split; [reflexivity|].
      split; [now constructor|].
      apply matches_Between_class; [lia|]. split; [lia | exact Hrest].
Qed.

(** X23: isEmail accepts a string exactly when it is a local part, an at
    sign, a domain, a dot and a top-level name: the local part not empty
    and of letters, digits, dots, underscores and hyphens, the domain not
    empty and of letters, digits, dots and hyphens, the top-level name of
    two letters or more. *)
Theorem isEmail_shape (s : string) :
  typeCheckers.isEmail (VStr s) = Ok true
  <-> exists local domain tld,
        String.list_ascii_of_string s
        = local ++ at_sign :: domain ++ dot :: tld
        /\ local <> [] /\ forallb local_char local = true
        /\ domain <> [] /\ forallb domain_char domain = true
        /\ 2 <= length tld /\ forallb letter tld = true.
Proof.
  unfold typeCheckers.isEmail. cbn [ToString]. rewrite Ok_true_iff.
  unfold test. rewrite test_chars_matches.
  unfold typeCheckers.email_pattern. rewrite matches_Seq_iff. split.
  - intros (local & t1 & Hs & Hlocal & H1).
    apply matches_Seq_iff in H1 as (a & t2 & -> & Ha & H2).
    apply matches_Lit_iff in Ha as ->.
    apply matches_Seq_iff in H2 as (domain & t3 & -> & Hdomain & H3).
    apply matches_Seq_iff in H3 as (d & tld & -> & Hd & Htld).
    apply matches_Lit_iff in Hd as ->.
    apply matches_Plus_class in Hlocal as [Hl1 Hl2].
    apply matches_Plus_class in Hdomain as [Hd1 Hd2].
    apply matches_AtLeast_class in Htld as [Ht1 Ht2].
    exists local, domain, tld. repeat split; assumption.
  - intros (local & domain & tld & Hs & Hl1 & Hl2 & Hd1 & Hd2 & Ht1 & Ht2).
    exists local, (at_sign :: domain ++ dot :: tld). split; [exact Hs|].
    split; [now apply matches_Plus_class|].
    apply matches_Seq_iff. exists [at_sign], (domain ++ dot :: tld).
    split; [reflexivity|]. split; [now apply matches_Lit_iff|].
    apply matches_Seq_iff. exists domain, (dot :: tld).
    split; [reflexivity|]. split; [now apply matches_Plus_class|].
    apply matches_Seq_iff. exists [dot], tld.
    split; [reflexivity|]. split; [now apply matches_Lit_iff|].
    now apply matches_AtLeast_class.
Qed.

(** The testers on strings, and on a number, which [test] prints first. *)
Example typeCheckers_on_inputs :
  typeCheckers.isEmail (VStr "a@b.co") = Ok true
  /\ typeCheckers.isEmail (VStr "first.last@mail.example.org") = Ok true
  /\ typeCheckers.isEmail (VStr "a@b") = Ok false
  /\ typeCheckers.isEmail (VStr "a b@c.de") = Ok false
  /\ typeCheckers.isEmail (VStr "a@b.c0") = Ok false
  /\ typeCheckers.isPhone (VStr "+14155552671") = Ok true
  /\ typeCheckers.isPhone (VStr "0123") = Ok false
  /\ typeCheckers.isPhone (VStr "7") = Ok false
  /\ typeCheckers.isPhone (VStr "1234567890123456") = Ok false
  /\ typeCheckers.isPhone (VNum 12345) = Ok true
  /\ typeCheckers.isPhone (VSymbol "s")
     = Throw (TypeError "Cannot convert a Symbol value to a string").
Proof. repeat split; vm_compute; reflexivity. Qed.

Lemma matches_Alt_iff (r1 r2 : regex) (s : list Ascii.ascii) :
  matches (Alt r1 r2) s <-> matches r1 s \/ matches r2 s.
Proof.
  split.
  - intros H. inv H; tauto.
  - intros [H|H]; [now apply matches_Alt_l | now apply matches_Alt_r].
Qed.

Lemma matches_Eps_iff (s : list Ascii.ascii) : matches Eps s <-> s = [].
Proof. split; [intros H; now inv H | intros ->; constructor]. Qed.

Lemma matches_Word_i (w : list Ascii.ascii) :
  forall s, matches (Word_i w) s <-> map upper s = map upper w.
Proof.
  induction w as [|c w IH]; intros s; simpl.
  - split.
    + intros H. now inv H.
    + intros H. destruct s; [constructor | discriminate].
  - rewrite matches_Seq_iff. split.
    + intros (s1 & s2 & -> & H1 & H2).
      apply matches_Chr_iff in H1 as (a & -> & Ha).
      apply Ascii.eqb_eq in Ha. apply IH in H2. simpl. now rewrite Ha, H2.
    + intros H. destruct s as [|a s]; [discriminate|].
      simpl in H. injection H as Ha Hs. exists [a], s.
      split; [reflexivity|]. split; [|now apply IH].
      constructor. unfold ci. rewrite Ha. apply Ascii.eqb_refl.
Qed.

Lemma upper_separator (a x : Ascii.ascii) :
  x ∈ String.list_ascii_of_string "://" -> upper a = upper x -> a = x.
Proof.
  intros Hx. apply list_elem_of_In in Hx. simpl in Hx.
  destruct Hx as [<-|[<-|[<-|[]]]];
    destruct a as [[] [] [] [] [] [] [] []]; vm_compute; intros H;
    try discriminate H; reflexivity.
Qed.

Lemma Word_i_separator (s : list Ascii.ascii) :
  matches (Word_i (String.list_ascii_of_string "://")) s
  <-> s = String.list_ascii_of_string "://".
Proof.
  rewrite matches_Word_i. split; [|now intros ->].
  intros H. destruct s as [|a [|b [|c [|d s]]]]; try discriminate.
  cbn [map String.list_ascii_of_string] in *. injection H as Ha Hb Hc.
  apply upper_separator in Ha, Hb, Hc;
    try (apply list_elem_of_In; simpl; tauto).
  now subst.
Qed.

(** X24: isUrl accepts a string exactly when it is http, https or ftp in
    any mix of cases, then [://], then one character that is neither white
    space nor one of [/ $ . ? #], then one character that is no line end,
    and then characters without white space: at least two characters after
    the slashes, of which the second may be a blank. *)
Theorem isUrl_shape (s : string) :
  typeCheckers.isUrl (VStr s) = Ok true
  <-> exists scheme c1 c2 rest,
        String.list_ascii_of_string s
        = scheme ++ String.list_ascii_of_string "://" ++ c1 :: c2 :: rest
        /\ (map upper scheme = map upper (String.list_ascii_of_string "http")
            \/ map upper scheme
               = map upper (String.list_ascii_of_string "https")
            \/ map upper scheme
               = map upper (String.list_ascii_of_string "ftp"))
        /\ host_first c1 = true
        /\ any_char c2 = true
        /\ forallb non_space rest = true.
Proof.
  unfold typeCheckers.isUrl. cbn [ToString]. rewrite Ok_true_iff.
  unfold test. rewrite test_chars_matches.
  unfold typeCheckers.url_pattern. rewrite matches_Seq_iff. split.
  - intros (scheme & t1 & Hs & Hscheme & H1).
    apply matches_Seq_iff in H1 as (sep & t2 & -> & Hsep & H2).
    apply Word_i_separator in Hsep as ->.
    apply matches_Seq_iff in H2 as (x1 & t3 & -> & Hc1 & H3).
    apply matches_Chr_iff in Hc1 as (c1 & -> & Hc1).
    apply matches_Seq_iff in H3 as (x2 & rest & -> & Hc2 & Hrest).
    apply matches_Chr_iff in Hc2 as (c2 & -> & Hc2).
    apply matches_Star_class in Hrest.
    exists scheme, c1, c2, rest. split; [exact Hs|].
    split; [|now repeat split].
    apply matches_Alt_iff in Hscheme as [Hseq|Hftp].
    + apply matches_Seq_iff in Hseq as (h & o & -> & Hh & Ho).
      apply matches_Word_i in Hh. unfold Opt in Ho.
      apply matches_Alt_iff in Ho as [Hw|Heps].
      * apply matches_Word_i in Hw. right. left. now rewrite map_app, Hh, Hw.
      * apply matches_Eps_iff in Heps as ->. left. now rewrite app_nil_r.
    + right. right. now apply matches_Word_i.
  - intros (scheme & c1 & c2 & rest & Hs & Hscheme & Hc1 & Hc2 & Hrest).
    exists scheme, (String.list_ascii_of_string "://" ++ c1 :: c2 :: rest).
    split; [exact Hs|]. split.
    + destruct Hscheme as [H|[H|H]].
      * apply matches_Alt_l. apply matches_Seq_iff. exists scheme, [].
        split; [now rewrite app_nil_r|]. split; [now apply matches_Word_i|].
        apply matches_Alt_r. constructor.
      * apply matches_Alt_l. apply matches_Seq_iff.
        destruct scheme as [|h1 [|h2 [|h3 [|h4 [|h5 [|h6 scheme]]]]]];
          try discriminate.
        exists [h1; h2; h3; h4], [h5]. split; [reflexivity|].
        cbn [map String.list_ascii_of_string] in H.
        injection H as H1 H2 H3 H4 H5.
        split.
        -- apply matches_Word_i. cbn [map String.list_ascii_of_string].
           now rewrite H1, H2, H3, H4.
        -- apply matches_Alt_l. apply matches_Word_i.
           cbn [map String.list_ascii_of_string]. now rewrite H5.
      * apply matches_Alt_r. now apply matches_Word_i.
    + apply matches_Seq_iff.
      exists (String.list_ascii_of_string "://"), (c1 :: c2 :: rest).
      split; [reflexivity|]. split; [now apply Word_i_separator|].
      apply matches_Seq_iff. exists [c1], (c2 :: rest).
      split; [reflexivity|]. split; [now constructor|].
      apply matches_Seq_iff. exists [c2], rest.
      split; [reflexivity|]. split; [now constructor|].
      now apply matches_Star_class.
Qed.

Example isUrl_on_inputs :
  typeCheckers.isUrl (VStr "https://example.com/a?b=1") = Ok true
  /\ typeCheckers.isUrl (VStr "HtTp://ab") = Ok true
  /\ typeCheckers.isUrl (VStr "http://a b") = Ok true
  /\ typeCheckers.isUrl (VStr "ftp://x") = Ok false
  /\ typeCheckers.isUrl (VStr "http://.ab") = Ok false
  /\ typeCheckers.isUrl (VStr "http://ab c") = Ok false
  /\ typeCheckers.isUrl (VStr "mailto:a@b.co") = Ok false.
Proof. repeat split; vm_compute; reflexivity. Qed.

(** ** The properties at the container of the example *)

Lemma three_numbers :
  Forall (fun x => typeof x = "number") [VNum 10; VNum 20; VNum 30].
Proof. repeat constructor. Qed.

Lemma mutations_keep_numbers_witness :
  three_store !! TypeGuard.data three = Some [VNum 10; VNum 20; VNum 30]
  /\ Forall (fun x => typeof x = "number") [VNum 10; VNum 20; VNum 30]
  /\ exists zs,
       mutate_all three [Push (VStr "x"); Push (VNum 40); RemoveAt (Int 0)]
         three_store
       = Some (Ok tt, <[TypeGuard.data three := zs]> three_store)
       /\ Forall (fun x => typeof x = "number") zs.
Proof.
  split; [exact three_store_data|]. split; [exact three_numbers|].
  apply (mutations_keep_numbers three
           [Push (VStr "x"); Push (VNum 40); RemoveAt (Int 0)] three_store
           [VNum 10; VNum 20; VNum 30] three_store_data three_numbers).
Defined.

Lemma push_pop_round_trip_witness :
  three_store !! TypeGuard.data three = Some [VNum 10; VNum 20; VNum 30]
  /\ typeof (VNum 40) = "number"
  /\ (TypeGuard.push three (VNum 40) ≫= fun _ => TypeGuard.pop three)
       three_store
     = Some (Ok (VNum 40), three_store).
Proof.
  split; [exact three_store_data|]. split; [reflexivity|].
  apply (push_pop_round_trip three (VNum 40) three_store
           [VNum 10; VNum 20; VNum 30] three_store_data eq_refl).
Defined.

Lemma index_1_in_range : (0 <= 1 <= Z.of_nat 3)%Z.
Proof. lia. Qed.

Lemma index_2_in_range : (0 <= 2 < Z.of_nat 3)%Z.
Proof. lia. Qed.

Lemma index_3_out_of_range : ~ (0 <= 3 < Z.of_nat 3)%Z.
Proof. lia. Qed.

Lemma insertAt_removeAt_round_trip_witness :
  three_store !! TypeGuard.data three = Some [VNum 10; VNum 20; VNum 30]
  /\ (0 <= 1 <= Z.of_nat 3)%Z
  /\ typeof (VNum 15) = "number"
  /\ (TypeGuard.insertAt three (Int 1) (VNum 15)
        ≫= fun _ => TypeGuard.removeAt three (Int 1)) three_store
     = Some (Ok (VNum 15), three_store).
Proof.
  split; [exact three_store_data|]. split; [exact index_1_in_range|].
  split; [reflexivity|].
  apply (insertAt_removeAt_round_trip three 1 (VNum 15) three_store
           [VNum 10; VNum 20; VNum 30] three_store_data index_1_in_range
           eq_refl).
Defined.

Lemma insertAt_shifts_witness :
  three_store !! TypeGuard.data three = Some [VNum 10; VNum 20; VNum 30]
  /\ (0 <= 1 <= Z.of_nat 3)%Z
  /\ typeof (VNum 15) = "number"
  /\ exists σ',
       TypeGuard.insertAt three (Int 1) (VNum 15) three_store
       = Some (Ok three, σ')
       /\ TypeGuard.at_ three 1 σ' = Some (Ok (VNum 15), σ').
Proof.
  split; [exact three_store_data|]. split; [exact index_1_in_range|].
  split; [reflexivity|].
  destruct (insertAt_shifts three 1 (VNum 15) three_store
              [VNum 10; VNum 20; VNum 30] three_store_data index_1_in_range
              eq_refl) as (σ' & Hinsert & _ & Hat & _).
  exists σ'. split; [exact Hinsert | exact Hat].
Defined.

Lemma removeAt_shifts_witness :
  three_store !! TypeGuard.data three = Some [VNum 10; VNum 20; VNum 30]
  /\ (0 <= 2 < Z.of_nat 3)%Z
  /\ exists σ',
       TypeGuard.removeAt three (Int 2) three_store
       = Some (Ok (get [VNum 10; VNum 20; VNum 30] 2), σ').
Proof.
  split; [exact three_store_data|]. split; [exact index_2_in_range|].
  destruct (removeAt_shifts three 2 three_store
              [VNum 10; VNum 20; VNum 30] three_store_data index_2_in_range)
    as (σ' & Hremove & _).
  exists σ'. exact Hremove.
Defined.

Lemma at_out_of_range_witness :
  three_store !! TypeGuard.data three = Some [VNum 10; VNum 20; VNum 30]
  /\ ~ (0 <= 3 < Z.of_nat 3)%Z
  /\ TypeGuard.at_ three 3 three_store = Some (Ok VUndefined, three_store).
Proof.
  split; [exact three_store_data|]. split; [exact index_3_out_of_range|].
  destruct (at_out_of_range three 3 three_store
              [VNum 10; VNum 20; VNum 30] three_store_data
              index_3_out_of_range) as [Hat _].
  exact Hat.
Defined.

Lemma double_returns (xs : list value) (i : nat) (x : value) :
  xs !! i = Some x -> exists y, double x (Z.of_nat i) = Ok y.
Proof. intros _. destruct x; eexists; reflexivity. Qed.

Lemma above_15_returns (xs : list value) (i : nat) (x : value) :
  xs !! i = Some x -> exists b, above_15 x (Z.of_nat i) = Ok b.
Proof. intros _. destruct x; eexists; reflexivity. Qed.

Lemma map_new_container_witness :
  three_store !! TypeGuard.data three = Some [VNum 10; VNum 20; VNum 30]
  /\ (forall i x, [VNum 10; VNum 20; VNum 30] !! i = Some x ->
        exists y, double x (Z.of_nat i) = Ok y)
  /\ exists mapped σ',
       TypeGuard.map three double three_store = Some (Ok mapped, σ')
       /\ TypeGuard.data mapped <> TypeGuard.data three.
Proof.
  split; [exact three_store_data|]. split; [apply double_returns|].
  destruct (map_new_container three double three_store
              [VNum 10; VNum 20; VNum 30] three_store_data
              (double_returns [VNum 10; VNum 20; VNum 30]))
    as (mapped & σ' & ys & Hmap & Hne & _).
  exists mapped, σ'. split; [exact Hmap | exact Hne].
Defined.

Lemma filter_new_container_witness :
  three_store !! TypeGuard.data three = Some [VNum 10; VNum 20; VNum 30]
  /\ (forall i x, [VNum 10; VNum 20; VNum 30] !! i = Some x ->
        exists b, above_15 x (Z.of_nat i) = Ok b)
  /\ exists filtered σ',
       TypeGuard.filter three above_15 three_store = Some (Ok filtered, σ')
       /\ σ' !! TypeGuard.data filtered
          = Some (chosen above_15 [VNum 10; VNum 20; VNum 30]).
Proof.
  split; [exact three_store_data|]. split; [apply above_15_returns|].
  destruct (filter_new_container three above_15 three_store
              [VNum 10; VNum 20; VNum 30] three_store_data
              (above_15_returns [VNum 10; VNum 20; VNum 30]))
    as (filtered & σ' & Hfilter & _ & _ & Hkept & _).
  exists filtered, σ'. split; [exact Hfilter | exact Hkept].
Defined.

Example chosen_above_15 :
  chosen above_15 [VNum 10; VNum 20; VNum 30; VNum 20]
  = [VNum 20; VNum 30; VNum 20].
Proof. reflexivity. Qed.

Lemma callback_error_propagates_witness :
  three_store !! TypeGuard.data three = Some [VNum 10; VNum 20; VNum 30]
  /\ [VNum 10; VNum 20; VNum 30] !! 0 = Some (VNum 10)
  /\ TypeGuard.map three (fun _ _ => Throw (Error "no")) three_store
     = Some (Throw (Error "no"), three_store).
Proof.
  split; [exact three_store_data|]. split; [reflexivity|].
  destruct (callback_error_propagates three (Error "no") 0 (VNum 10)
              three_store [VNum 10; VNum 20; VNum 30] three_store_data
              eq_refl) as [Hmap _].
  apply (Hmap (fun _ _ => Throw (Error "no")) eq_refl).
  intros j x' Hj. lia.
Defined.

Lemma reduce_folds_left_witness :
  three_store !! TypeGuard.data three = Some [VNum 10; VNum 20; VNum 30]
  /\ typeof (VNum 40) = "number"
  /\ exists before,
       TypeGuard.reduce three plus (VNum 0) three_store
       = Some (before, three_store).
Proof.
  split; [exact three_store_data|]. split; [reflexivity|].
  destruct (reduce_folds_left three plus (VNum 0) (VNum 40) three_store
              [VNum 10; VNum 20; VNum 30] three_store_data eq_refl)
    as [_ (before & Hbefore & _)].
  exists before. exact Hbefore.
Defined.

Lemma plus_adds (a b i : Z) :
  safe a = true -> safe b = true -> safe (a + b) = true ->
  plus (VNum a) (VNum b) i = Ok (VNum (a + b)).
Proof. intros Ha Hb Hab. unfold plus. now rewrite Ha, Hb, Hab. Qed.

Lemma three_safe :
  Forall (fun x => exists n, x = VNum n /\ safe n = true)
    [VNum 10; VNum 20; VNum 30].
Proof. repeat constructor; eexists; split; reflexivity. Qed.

Lemma three_sums_safe (j : nat) :
  j <= length [VNum 10; VNum 20; VNum 30] ->
  safe (total (take j [VNum 10; VNum 20; VNum 30])) = true.
Proof.
  intros _. destruct j as [|[|[|[|j]]]]; reflexivity.
Qed.

Lemma reduce_sums_witness :
  three_store !! TypeGuard.data three = Some [VNum 10; VNum 20; VNum 30]
  /\ TypeGuard.reduce three plus (VNum 0) three_store
     = Some (Ok (VNum (total [VNum 10; VNum 20; VNum 30])), three_store).
Proof.
  split; [exact three_store_data|].
  apply (reduce_sums three plus three_store [VNum 10; VNum 20; VNum 30]
           three_store_data three_safe three_sums_safe plus_adds).
Defined.

Lemma contains_finds_witness :
  three_store !! TypeGuard.data three = Some [VNum 10; VNum 20; VNum 30]
  /\ exists b, TypeGuard.contains three (PNum 20) three_store
               = Some (Ok b, three_store)
       /\ (b = true <-> inject (PNum 20) ∈ [VNum 10; VNum 20; VNum 30]).
Proof.
  split; [exact three_store_data|].
  destruct (contains_finds three (PNum 20) three_store
              [VNum 10; VNum 20; VNum 30] three_store_data) as [Hfind _].
  exact Hfind.
Defined.

Lemma string_not_undefined : VStr "abc" <> VUndefined.
Proof. discriminate. Qed.

Lemma constructor_takes_arrays_witness :
  Array_isArray (VStr "abc") = false
  /\ TypeGuard.constructor (ByValue (VStr "abc")) three_store
     = Some (Throw (TypeError "Initial values must be an array-like structure"),
             three_store).
Proof.
  split; [reflexivity|].
  destruct (constructor_takes_arrays (VStr "abc") three_store eq_refl)
    as [Hthrow _].
  exact (Hthrow string_not_undefined).
Defined.

Lemma checked_testers_checkers (name : string) :
  name ∈ consulted ->
  exists f, checked_testers !! name = Some (checker f) /\ throws_errors f.
Proof.
  intros H. apply list_elem_of_In in H. simpl in H.
  destruct H as [<-|[<-|[<-|[<-|[]]]]]; eexists;
    (split; [reflexivity|]); intros v e; try discriminate.
  unfold faulty. now intros [= <-].
Qed.

Lemma checkers_catch_errors_witness :
  (forall name, name ∈ consulted ->
     exists f, checked_testers !! name = Some (checker f) /\ throws_errors f)
  /\ testers_return checked_testers mixed_root.
Proof.
  split; [exact checked_testers_checkers|].
  destruct (checkers_catch_errors checked_testers checked_testers_checkers)
    as (_ & _ & _ & Hall).
  exact (Hall mixed_root).
Defined.

Lemma array_beyond_typeof : "array" ∈ names_beyond_typeof.
Proof. apply list_elem_of_In. simpl. tauto. Qed.

Lemma names_beyond_typeof_rejected_witness :
  "array" ∈ names_beyond_typeof
  /\ TypeGuard.typeGuard (VArr []) "array"
     = Throw (TypeError "Expected type array, but received object").
Proof.
  split; [exact array_beyond_typeof|].
  destruct (names_beyond_typeof_rejected (VArr []) "array"
              array_beyond_typeof) as (_ & Hguard & _).
  exact Hguard.
Defined.

Example example_usage_end_prints :
  fst <$> example_usage_end ∅ = Some (Ok ("[20, 30, 60, 80]", VNum 95)).
Proof. vm_compute. reflexivity. Qed.

(** ** An error of a tester ends the traversal *)

Section Propagation.

Variable typeEnum : gmap string predicate.

Lemma test_leaves_app (l1 l2 : list value) :
  forall result,
    test_leaves typeEnum (l1 ++ l2) result
    = match test_leaves typeEnum l1 result with
      | Ok r => test_leaves typeEnum l2 r
      | Throw e => Throw e
      end.
Proof.
  induction l1 as [|x l1 IH]; intros result; simpl; [reflexivity|].
  destruct (classify typeEnum x) as [[|]|e]; [apply IH | apply IH | reflexivity].
Qed.

Lemma test_leaves_throws (before after : list value) (x : value) (e : exn) :
  (forall y, y ∈ before -> exists b, classify typeEnum y = Ok b) ->
  classify typeEnum x = Throw e ->
  forall result, test_leaves typeEnum (before ++ x :: after) result = Throw e.
Proof.
  intros Hbefore Hthrow.
  induction before as [|y before IH]; intros result; simpl.
  - now rewrite Hthrow.
  - destruct (Hbefore y) as [b Hb]; [apply list_elem_of_here|].
    rewrite Hb.
    assert (forall z, z ∈ before -> exists b, classify typeEnum z = Ok b)
      as Hrest by (intros z Hz; apply Hbefore; now apply list_elem_of_further).
    destruct b; now apply IH.
Qed.

(** The depth-first loop tests the leaves of its stack from the right. *)
Lemma dfs_loop_tests (fuel : nat) :
  forall stack result,
    list_sum (map weight stack) < fuel ->
    dfs_loop typeEnum fuel stack result
    = Some (test_leaves typeEnum (reverse (leaves stack)) result).
Proof.
  induction fuel as [|fuel IH]; intros stack result Hlt; [lia|].
  simpl. pose proof (array_pop_snoc stack) as Hpop.
  destruct (array_pop stack) as [[item rest]|]; subst stack; [|reflexivity].
  rewrite map_app, list_sum_app in Hlt. simpl in Hlt.
  rewrite leaves_snoc, (flatten_step item).
  destruct (Array_isArray item) eqn:Harr.
  { rewrite IH, leaves_app; [reflexivity|].
    rewrite map_app, list_sum_app.
    rewrite (weight_spread item Harr) in Hlt. lia. }
  destruct (String.eqb (typeof item) "object" && not_null item).
  { rewrite IH, leaves_app; [reflexivity|].
    rewrite map_app, list_sum_app.
    pose proof (weight_Object_values item). lia. }
  rewrite reverse_snoc. simpl. pose proof (weight_pos item).
  destruct (classify typeEnum item) as [[|]|e]; [| |reflexivity];
    apply IH; lia.
Qed.

(** The breadth-first loop tests the scalars of one level of its queue and
    is left with the next, unless a tester throws. *)
Lemma bfs_loop_level_tests (q : list value) :
  forall later result fuel,
    bfs_loop typeEnum (length q + S fuel) (q ++ later) result
    = match test_leaves typeEnum (scalars q) result with
      | Ok r => bfs_loop typeEnum (S fuel) (later ++ children q) r
      | Throw e => Some (Throw e)
      end.
Proof.
  unfold scalars, children.
  induction q as [|item q IH]; intros later result fuel.
  { cbn [length Nat.add app map concat List.filter test_leaves].
    now rewrite app_nil_r. }
  cbn [length Nat.add app map concat List.filter].
  destruct (scalar item) eqn:Hscalar.
  - rewrite (bfs_loop_scalar _ _ _ _ _ Hscalar), (scalar_expand item Hscalar).
    cbn [test_leaves app].
    destruct (classify typeEnum item) as [[|]|e]; [apply IH | apply IH|].
    reflexivity.
  - rewrite (bfs_loop_composite _ _ _ _ _ Hscalar).
    rewrite <- app_assoc, IH, <- app_assoc. reflexivity.
Qed.

Lemma bfs_tests_nil (n : nat) (result : list value) :
  bfs_tests typeEnum n [] result = Ok result.
Proof. induction n as [|n IH]; [reflexivity|]. simpl. exact IH. Qed.

Lemma bfs_loop_tests (n : nat) :
  forall q result fuel,
    list_sum (map weight q) <= n ->
    bfs_loop typeEnum (list_sum (map weight q) + S fuel) q result
    = Some (bfs_tests typeEnum n q result).
Proof.
  induction n as [|n IH]; intros q result fuel Hn.
  { destruct q as [|item q]; [reflexivity|].
    simpl in Hn. pose proof (weight_pos item). lia. }
  pose proof (weight_children q) as Hw.
  replace (list_sum (map weight q) + S fuel)
    with (length q + S (list_sum (map weight (children q)) + fuel)) by lia.
  pose proof (bfs_loop_level_tests q [] result
                (list_sum (map weight (children q)) + fuel)) as Hlevel.
  rewrite app_nil_r in Hlevel. rewrite Hlevel. cbn [app bfs_tests].
  destruct (test_leaves typeEnum (scalars q) result) as [r|e]; [|reflexivity].
  replace (S (list_sum (map weight (children q)) + fuel))
    with (list_sum (map weight (children q)) + S fuel) by lia.
  apply IH.
  destruct q as [|item q]; [simpl; lia|]. simpl in *. lia.
Qed.

Lemma bfs_tests_leaves_at (n : nat) :
  forall q result,
    bfs_tests typeEnum n q result
    = test_leaves typeEnum
        (concat (map (fun d => concat (map (leaves_at d) q)) (seq 0 n)))
        result.
Proof.
  induction n as [|n IH]; intros q result; [reflexivity|].
  cbn [bfs_tests seq map concat].
  rewrite test_leaves_app, leaves_at_O.
  destruct (test_leaves typeEnum (scalars q) result) as [r|e]; [|reflexivity].
  rewrite IH. f_equal. f_equal.
  rewrite <- seq_shift, map_map. apply map_ext. intros d.
  symmetry. apply leaves_at_S.
Qed.

Lemma bfsTraversal_tests (obj : value) (n : nat) :
  weight obj <= n ->
  bfsTraversal obj typeEnum
  = Some (test_leaves typeEnum (level_order n obj) []).
Proof.
  intros Hn. unfold bfsTraversal.
  replace (S (weight obj)) with (list_sum (map weight [obj]) + 1)
    by (simpl; lia).
  rewrite (bfs_loop_tests n) by (simpl; lia).
  rewrite bfs_tests_leaves_at. unfold level_order.
  do 3 f_equal. apply map_ext. intros d. simpl. apply app_nil_r.
Qed.

(** X4: an error that the chain of testers throws at a leaf is not caught:
    when the chain returns at every leaf that a traversal visits before
    that one, the traversal throws that error.  The depth-first traversal
    visits the leaves from the right, the breadth-first one level by
    level. *)
Theorem tester_error_propagates (obj x : value) (before : list value)
  (e : exn) :
  (forall y, y ∈ before -> exists b, classify typeEnum y = Ok b) ->
  classify typeEnum x = Throw e ->
  (forall after,
     reverse (flatten obj) = before ++ x :: after ->
     dfsTraversal obj typeEnum = Some (Throw e))
  /\ (forall n after,
        weight obj <= n ->
        level_order n obj = before ++ x :: after ->
        bfsTraversal obj typeEnum = Some (Throw e)).
Proof.
  intros Hbefore Hthrow. split.
  - intros after Horder. unfold dfsTraversal.
    rewrite dfs_loop_tests by (simpl; lia).
    rewrite leaves_singleton, Horder.
    now rewrite (test_leaves_throws before after x e Hbefore Hthrow).
  - intros n after Hn Horder.
    rewrite (bfsTraversal_tests obj n Hn), Horder.
    now rewrite (test_leaves_throws before after x e Hbefore Hthrow).
Qed.

End Propagation.

Lemma nothing_before (y : value) :
  y ∈ @nil value -> exists b, classify only_isNumber y = Ok b.
Proof. intros H. now apply elem_of_nil in H. Qed.

Lemma only_isNumber_throws_at_true :
  classify only_isNumber (VBool true)
  = Throw (TypeError "typeEnum.isString is not a function").
Proof. reflexivity. Qed.

Lemma tester_error_propagates_witness :
  (forall y, y ∈ @nil value -> exists b, classify only_isNumber y = Ok b)
  /\ classify only_isNumber (VBool true)
     = Throw (TypeError "typeEnum.isString is not a function")
  /\ reverse (flatten mixed_root) = [] ++ VBool true :: [VStr "a"]
  /\ dfsTraversal mixed_root only_isNumber
     = Some (Throw (TypeError "typeEnum.isString is not a function")).
Proof.
  split; [exact nothing_before|].
  split; [exact only_isNumber_throws_at_true|].
  split; [reflexivity|].
  destruct (tester_error_propagates only_isNumber mixed_root (VBool true) []
              (TypeError "typeEnum.isString is not a function")
              nothing_before only_isNumber_throws_at_true) as [Hdfs _].
  apply (Hdfs [VStr "a"]). reflexivity.
Defined.
